(** * Hoverfly: request pipeline, simulation store and collaborators

    A shallow embedding of the parts of the Hoverfly sources that the
    specification talks about, one module per Go package:

    - [strconv]   : the two [strconv] functions used for sequencing;
    - [models]    : [core/models/simulation.go] ([AddPair], [AddPairInSequence]);
    - [matching]  : [core/matching/request_template_store.go];
    - [hoverfly]  : the [hoverfly] package file holding [GetResponse],
                    [processRequest], [DoRequest] and
                    [GetDefaultHoverflyHTTPClient];
    - [backends]  : [authentication/backends/storage_backend.go];
    - [v2]        : schema negotiation of the simulation import;
    - [middleware]: remote middleware execution.

    Go maps are [gmap]s; a map that may be [nil] is an [option (gmap _ _)],
    because [reflect.DeepEqual] tells a nil map from an empty one.  Go's [int]
    is taken to be 64 bits wide and its wrap-around is written out. *)

From Stdlib Require Import ZArith String Ascii Decimal DecimalString DecimalN Lia.
From stdpp Require Import gmap strings list fin_maps.

Local Open Scope string_scope.
Local Open Scope Z_scope.

(** ** Results of Go calls *)

(** A call that returns [(value, error)]: the value, or the error's text. *)
Inductive orError (A : Type) : Type :=
  | Value (a : A)
  | Error (err : string).
Arguments Value {A} a.
Arguments Error {A} err.

(** A call that may panic at run time (index out of range, nil method
    value) instead of returning. *)
Inductive orPanic (A : Type) : Type :=
  | Returns (a : A)
  | Panics (reason : string).
Arguments Returns {A} a.
Arguments Panics {A} reason.

(** The character [34], the double quote. *)
Definition dquote : string := String (ascii_of_nat 34) EmptyString.

(** ** Package [strings] *)

Module strings.

(** [strings.Contains]. *)
Fixpoint Contains (s substr : string) : bool :=
  String.prefix substr s ||
  match s with
  | EmptyString => false
  | String _ rest => Contains rest substr
  end.

Definition isLower (c : ascii) : bool :=
  (97 <=? Z.of_nat (nat_of_ascii c)) && (Z.of_nat (nat_of_ascii c) <=? 122).

Definition isUpper (c : ascii) : bool :=
  (65 <=? Z.of_nat (nat_of_ascii c)) && (Z.of_nat (nat_of_ascii c) <=? 90).

Definition toLower (c : ascii) : ascii :=
  if isUpper c then ascii_of_nat (nat_of_ascii c + 32) else c.

Definition toUpper (c : ascii) : ascii :=
  if isLower c then ascii_of_nat (nat_of_ascii c - 32) else c.


(** [strings.HasPrefix]. *)
Definition HasPrefix (s prefix : string) : bool := String.prefix prefix s.

(** [len(s)], the number of bytes. *)
Definition len (s : string) : Z := Z.of_nat (String.length s).

(** The first occurrence of [sep] in [s]: the text before it and the text
    after it, as [strings.Index] locates it. *)
Fixpoint cut (sep s : string) : option (string * string) :=
  if String.prefix sep s
  then Some (EmptyString, String.substring (String.length sep) (String.length s) s)
  else match s with
       | EmptyString => None
       | String c rest =>
           match cut sep rest with
           | Some (before, after) => Some (String c before, after)
           | None => None
           end
       end.

(** The loop of [genSplit] for a separator that is not empty and no limit
    on the number of pieces: the text is cut at the successive occurrences of
    [sep], found from the left; with [sepSave] each piece keeps the separator
    that ends it. One unit of fuel is spent for each piece. *)
Fixpoint genSplit (fuel : nat) (s sep : string) (sepSave : bool) : list string :=
  match fuel with
  | O => [s]
  | S fuel =>
      match cut sep s with
      | None => [s]
      | Some (before, after) =>
          (if sepSave then before +:+ sep else before) :: genSplit fuel after sep sepSave
      end
  end.

(** [strings.Split] and [strings.SplitAfter], for a separator that is not
    empty, as in every call of these sources. A text of [n] bytes has at most
    [n] occurrences of the separator, so the fuel is enough. *)
Definition Split (s sep : string) : list string :=
  genSplit (String.length s) s sep false.

Definition SplitAfter (s sep : string) : list string :=
  genSplit (String.length s) s sep true.

(** [strings.Join]. *)
Fixpoint Join (elems : list string) (sep : string) : string :=
  match elems with
  | [] => EmptyString
  | [e] => e
  | e :: rest => e +:+ sep +:+ Join rest sep
  end.

End strings.

(** ** Go's [int] and [strconv] *)

Module strconv.

Definition maxInt : Z := 2 ^ 63 - 1.
Definition minInt : Z := - 2 ^ 63.

(** Two's complement wrap-around of [int] arithmetic. *)
Definition wrap (z : Z) : Z := (z + 2 ^ 63) mod 2 ^ 64 - 2 ^ 63.

(** [strconv.Itoa]: base 10, a leading [-] for negative numbers. *)
Definition Itoa (i : Z) : string :=
  if i <? 0
  then String "-" (NilEmpty.string_of_uint (N.to_uint (Z.to_N (- i))))
  else NilEmpty.string_of_uint (N.to_uint (Z.to_N i)).

(** The digits of [strconv.Atoi]'s argument once the sign is removed: the
    value is [0] on a syntax error (no digit, or a character that is not a
    digit); the caller in [simulation.go] drops the error. *)
Definition parseDigits (s : string) : option Z :=
  match s with
  | EmptyString => None
  | _ => match NilEmpty.uint_of_string s with
         | Some d => Some (Z.of_N (N.of_uint d))
         | None => None
         end
  end.

(** [strconv.Atoi] with its error dropped: [0] on a syntax error, the nearest
    bound on a range error. *)
Definition Atoi (s : string) : Z :=
  let '(neg, digits) :=
    match s with
    | String "+" rest => (false, rest)
    | String "-" rest => (true, rest)
    | _ => (false, s)
    end in
  match parseDigits digits with
  | None => 0
  | Some n =>
      let v := if neg : bool then - n else n in
      if v <? minInt then minInt else if maxInt <? v then maxInt else v
  end.

End strconv.

(** ** Package [models]: the simulation store *)

Module models.

(** [ResponseDetails], with the fields the sources read or write. *)
Record ResponseDetails := mkResponseDetails {
  Status : Z;
  Body : string;
  Headers : gmap string (list string);
  TransitionsState : option (gmap string string)
}.

#[global] Instance ResponseDetails_eq_dec : EqDecision ResponseDetails.
Proof. solve_decision. Defined.

(** A response-delay rule of the simulation. *)
Record ResponseDelay := mkResponseDelay {
  UrlPattern : string;
  HttpMethod : string;
  Delay : Z
}.

(** [RequestDetails], the normalized view of an incoming request. *)
Record RequestDetails := mkRequestDetails {
  reqPath : string;
  reqMethod : string;
  reqDestination : string;
  reqScheme : string;
  reqQuery : string;
  reqBody : string;
  reqHeaders : gmap string (list string)
}.

#[global] Instance RequestDetails_eq_dec : EqDecision RequestDetails.
Proof. solve_decision. Defined.

Record RequestResponsePair := mkRequestResponsePair {
  pairRequest : RequestDetails;
  pairResponse : ResponseDetails
}.

(** [Payload], the request and response handed to the template store and to
    middleware. *)
Record Payload := mkPayload {
  payloadResponse : ResponseDetails;
  payloadRequest : RequestDetails
}.

(** The zero values of the two structs. *)
Definition emptyRequestDetails : RequestDetails :=
  mkRequestDetails EmptyString EmptyString EmptyString EmptyString EmptyString
    EmptyString ∅.

Definition emptyResponseDetails : ResponseDetails :=
  mkResponseDetails 0 EmptyString ∅ None.

Section Simulation.

(** The field matchers of a [RequestMatcher] (path, method, destination,
    scheme, query, body, headers) are declared outside these sources.
    [simulation.go] only compares them with [reflect.DeepEqual], so they are a
    type with decidable equality here. *)
Context {Fields : Type} `{!EqDecision Fields}.

Record RequestMatcher := mkRequestMatcher {
  Matchers : Fields;
  RequiresState : option (gmap string string)
}.

Record RequestMatcherResponsePair := mkPair {
  pairRequestMatcher : RequestMatcher;
  Response : ResponseDetails
}.

Record Simulation := mkSimulation {
  matchingPairs : list RequestMatcherResponsePair;
  ResponseDelays : list ResponseDelay
}.

#[global] Instance RequestMatcher_eq_dec : EqDecision RequestMatcher.
Proof. solve_decision. Defined.

#[global] Instance RequestMatcherResponsePair_eq_dec :
  EqDecision RequestMatcherResponsePair.
Proof. solve_decision. Defined.

(** [reflect.DeepEqual] on two request matchers. *)
Definition DeepEqual (a b : RequestMatcher) : bool := bool_decide (a = b).

Definition NewSimulation : Simulation :=
  {| matchingPairs := []; ResponseDelays := [] |}.

(** The [range] loop of [AddPair]: [duplicate] is overwritten by each
    comparison and the loop is left at the first [true]. *)
Fixpoint AddPair_loop (m : RequestMatcher) (saved : list RequestMatcherResponsePair)
    (duplicate : bool) : bool :=
  match saved with
  | [] => duplicate
  | savedPair :: rest =>
      let duplicate := DeepEqual m (pairRequestMatcher savedPair) in
      if duplicate then duplicate else AddPair_loop m rest duplicate
  end.

Definition AddPair (this : Simulation) (pair : RequestMatcherResponsePair) : Simulation :=
  let duplicate := AddPair_loop (pairRequestMatcher pair) (matchingPairs this) false in
  if negb duplicate
  then {| matchingPairs := matchingPairs this ++ [pair];
          ResponseDelays := ResponseDelays this |}
  else this.

(** [m[k]] on a map that may be nil: the zero value when [k] is not there. *)
Definition index (m : option (gmap string string)) (k : string) : string :=
  match m with
  | Some m => default EmptyString (m !! k)
  | None => EmptyString
  end.

(** [if m == nil { m = map[string]string{} }]. *)
Definition orEmpty (m : option (gmap string string)) : gmap string string :=
  default ∅ m.

Definition withRequiresState (m : RequestMatcher) (rs : option (gmap string string))
    : RequestMatcher :=
  {| Matchers := Matchers m; RequiresState := rs |}.

Definition withTransitionsState (r : ResponseDetails) (ts : option (gmap string string))
    : ResponseDetails :=
  {| Status := Status r; Body := Body r; Headers := Headers r; TransitionsState := ts |}.

(** What the first loop of [AddPairInSequence] carries from one iteration to
    the next: the pair being inserted (its [RequiresState] is allocated at the
    first duplicate), the state map, [counter], and the saved pairs seen so
    far, each replaced by its entry of [updates] when it has one.

    The pairs are values: the pair being inserted and the saved pairs are
    taken to share no map with one another, as is the case for pairs built
    one by one from an imported simulation. [fmt.Println(counter)] is left
    out. *)
Record seqLoop := mkSeqLoop {
  loopPair : RequestMatcherResponsePair;
  loopState : gmap string string;
  counter : Z;
  updated : list RequestMatcherResponsePair
}.

(** The body of the first loop, for one [savedPair]. *)
Definition AddPairInSequence_body (l : seqLoop) (savedPair : RequestMatcherResponsePair)
    : seqLoop :=
  let pair := loopPair l in
  let pairNoState := withRequiresState (pairRequestMatcher pair) None in
  let savedPairNoState := withRequiresState (pairRequestMatcher savedPair) None in
  let duplicate := DeepEqual pairNoState savedPairNoState in
  if duplicate then
    let counter := strconv.wrap (counter l + 1) in
    let savedRequires := orEmpty (RequiresState (pairRequestMatcher savedPair)) in
    let savedTransitions := orEmpty (TransitionsState (Response savedPair)) in
    let pair :=
      {| pairRequestMatcher :=
           withRequiresState (pairRequestMatcher pair)
             (Some (orEmpty (RequiresState (pairRequestMatcher pair))));
         Response := Response pair |} in
    let sequenceState := index (Some savedRequires) "sequence" in
    let '(sequenceState, nextSequenceState, state) :=
      if String.eqb sequenceState EmptyString
      then ("1", "2", <["sequence" := "1"]> (loopState l))
      else
        let currentSequenceState := strconv.Atoi sequenceState in
        (sequenceState,
         strconv.Itoa (strconv.wrap (currentSequenceState + 1)),
         loopState l) in
    let savedPair :=
      {| pairRequestMatcher :=
           withRequiresState (pairRequestMatcher savedPair)
             (Some (<["sequence" := sequenceState]> savedRequires));
         Response :=
           withTransitionsState (Response savedPair)
             (Some (<["sequence" := nextSequenceState]> savedTransitions)) |} in
    {| loopPair := pair; loopState := state; counter := counter;
       updated := updated l ++ [savedPair] |}
  else
    {| loopPair := pair; loopState := loopState l; counter := counter l;
       updated := updated l ++ [savedPair] |}.

(** [AddPairInSequence]: the loop over the saved pairs, the write-back of
    [updates], the sequence number of the new pair, and the append.  The
    result is the simulation and the state map. *)
Definition AddPairInSequence (this : Simulation) (pair : RequestMatcherResponsePair)
    (state : gmap string string) : Simulation * gmap string string :=
  let l := fold_left AddPairInSequence_body (matchingPairs this)
             {| loopPair := pair; loopState := state; counter := 0; updated := [] |} in
  let pair :=
    if negb (counter l =? 0)
    then {| pairRequestMatcher :=
              withRequiresState (pairRequestMatcher (loopPair l))
                (Some (<["sequence" := strconv.Itoa (strconv.wrap (counter l + 1))]>
                         (orEmpty (RequiresState (pairRequestMatcher (loopPair l))))));
            Response := Response (loopPair l) |}
    else loopPair l in
  ({| matchingPairs := updated l ++ [pair]; ResponseDelays := ResponseDelays this |},
   loopState l).

Definition GetMatchingPairs (this : Simulation) : list RequestMatcherResponsePair :=
  matchingPairs this.

(** [DeleteMatchingPairs]: the pairs become the nil slice, the delays stay. *)
Definition DeleteMatchingPairs (this : Simulation) : Simulation :=
  {| matchingPairs := []; ResponseDelays := ResponseDelays this |}.


Definition AddPairs (this : Simulation) (pairs : list RequestMatcherResponsePair)
    : Simulation :=
  fold_left AddPair pairs this.



End Simulation.

Section ResponseDelayList.

(** The regular-expression engine: [regexMatch pattern text]. *)
Variable regexMatch : string -> string -> bool.

(** The text a rule's pattern is matched against. *)
Definition delayTarget (rule : ResponseDelay) (req : RequestDetails) : string :=
  (if String.eqb (HttpMethod rule) EmptyString then EmptyString
   else reqMethod req +:+ " ") +:+
  reqScheme req +:+ "://" +:+ reqDestination req +:+ reqPath req +:+ "?" +:+ reqQuery req.

Definition delayMatches (req : RequestDetails) (rule : ResponseDelay) : bool :=
  (String.eqb (HttpMethod rule) EmptyString || String.eqb (HttpMethod rule) (reqMethod req))
  && regexMatch (UrlPattern rule) (delayTarget rule req).

(** Modelled from the spec: [ResponseDelayList.GetDelay] is not in the
    sources. The rules are walked in insertion order and the first one whose
    [urlPattern] matches the request's method, scheme, destination, path and
    query is selected; the method is left out of the text when the rule names
    none and has to be equal when it names one. *)
Fixpoint ResponseDelayList_GetDelay (this : list ResponseDelay) (req : RequestDetails)
    : option ResponseDelay :=
  match this with
  | [] => None
  | rule :: rest =>
      if delayMatches req rule then Some rule else ResponseDelayList_GetDelay rest req
  end.

End ResponseDelayList.

Arguments RequestMatcher Fields : clear implicits.
Arguments RequestMatcherResponsePair Fields : clear implicits.
Arguments Simulation Fields : clear implicits.
Arguments seqLoop Fields : clear implicits.

End models.

(** ** Package [net/http] and [net/textproto], as far as the sources use them *)

Module http.

(** The bytes [textproto] accepts in a header name (the token characters). *)
Definition validHeaderFieldByte (c : ascii) : bool :=
  let n := Z.of_nat (nat_of_ascii c) in
  strings.isLower c || strings.isUpper c || ((48 <=? n) && (n <=? 57)) ||
  existsb (Ascii.eqb c)
    ["!"; "#"; "$"; "%"; "&"; "'"; "*"; "+"; "-"; "."; "^"; "_"; "`"; "|"; "~"]%char.

Fixpoint canonicalize (upper : bool) (s : string) : string :=
  match s with
  | EmptyString => EmptyString
  | String c rest =>
      let c' := if upper then strings.toUpper c else strings.toLower c in
      String c' (canonicalize (Ascii.eqb c' "-") rest)
  end.

Fixpoint allValid (s : string) : bool :=
  match s with
  | EmptyString => true
  | String c rest => validHeaderFieldByte c && allValid rest
  end.

(** [textproto.CanonicalMIMEHeaderKey]: the first letter and every letter
    after a hyphen in upper case, the others in lower case; a name holding a
    byte that is not a token character is returned as it is. *)
Definition CanonicalMIMEHeaderKey (s : string) : string :=
  if allValid s then canonicalize true s else s.

(** [http.Header] is a [map[string][]string]. *)
Abbreviation Header := (gmap string (list string)).

(** [Header.Set]: the canonical key is bound to the single value. *)
Definition Header_Set (h : Header) (key value : string) : Header :=
  <[CanonicalMIMEHeaderKey key := [value]]> h.

(** The request and response structs, with the fields the sources touch. *)
Record Request := mkRequest {
  Method : string;
  URL : string;
  Host : string;
  RequestURI : string;
  reqHeader : Header;
  reqBody : string
}.

Record Response := mkResponse {
  StatusCode : Z;
  respHeader : Header;
  respBody : string
}.

(** Error values. *)
Inductive error : Type :=
  | ErrUseLastResponse
  | errorString (text : string).

(** [tls.Config], [http.Transport] and [http.Client]. [Proxy] holds the URL
    that the function made by [http.ProxyURL] returns for every request. *)
Record tlsConfig := mkTLSConfig { InsecureSkipVerify : bool }.

Record Transport (URLType : Type) := mkTransport {
  Proxy : option URLType;
  TLSClientConfig : tlsConfig
}.
Arguments Proxy {URLType} _.
Arguments TLSClientConfig {URLType} _.

Record Client (URLType : Type) := mkClient {
  CheckRedirect : Request -> list Request -> error;
  clientTransport : Transport URLType
}.
Arguments CheckRedirect {URLType} _ _ _.
Arguments clientTransport {URLType} _.

(** [crypto/tls]: a client checks the server's certificate chain and host
    name unless [InsecureSkipVerify] is set. *)
Definition verifiesCertificates {URLType} (c : Client URLType) : bool :=
  negb (InsecureSkipVerify (TLSClientConfig (clientTransport c))).

End http.

(** ** Package [matching]: the request template store *)

Module matching.

Record RequestTemplate := mkRequestTemplate {
  Path : string;
  Method : string;
  Destination : string;
  Scheme : string;
  Query : string;
  Body : string;
  Headers : gmap string (list string)
}.

Record RequestTemplatePayload := mkRequestTemplatePayload {
  requestTemplate : RequestTemplate;
  Response : models.ResponseDetails
}.

Definition RequestTemplateStore := list RequestTemplatePayload.

(** The loop of [headerMatch] over the template's headers, in the order
    [entries] lists them. [reqHeaders[headerName]] is a plain map lookup on
    the name as the template spells it. Indexing an empty list of values
    panics. *)
Fixpoint headerMatch_range (entries : list (string * list string))
    (reqHeaders : http.Header) : orPanic bool :=
  match entries with
  | [] => Returns true
  | (headerName, headerVal) :: rest =>
      match reqHeaders !! headerName with
      | Some reqHeaderVal =>
          match headerVal, reqHeaderVal with
          | tmplFirst :: _, reqFirst :: _ =>
              if String.eqb tmplFirst reqFirst
              then headerMatch_range rest reqHeaders
              else Returns false
          | _, _ => Panics "index out of range"
          end
      | None => Returns false
      end
  end.

(** [headerMatch]. Go leaves the order in which [range] visits a map open;
    [map_to_list] fixes one. The result does not depend on the order unless a
    template header or a request header has no value at all. *)
Definition headerMatch (tmplHeaders : gmap string (list string))
    (reqHeaders : http.Header) : orPanic bool :=
  headerMatch_range (map_to_list tmplHeaders) reqHeaders.

(** [GetPayload] reads the request's headers only. It returns the first
    template that matches, or the error [No match found]. *)
Fixpoint GetPayload (this : RequestTemplateStore) (reqHeader : http.Header)
    : orPanic (orError models.Payload) :=
  match this with
  | [] => Returns (Error "No match found")
  | entry :: rest =>
      match headerMatch (Headers (requestTemplate entry)) reqHeader with
      | Panics reason => Panics reason
      | Returns true =>
          Returns (Value {| models.payloadResponse := Response entry;
                            models.payloadRequest := models.emptyRequestDetails |})
      | Returns false => GetPayload rest reqHeader
      end
  end.

End matching.

(** ** Package [hoverfly]: the proxy's request pipeline *)

Module hoverfly.

Import models.

(** The mode names, as the functional tests spell them. *)
Definition Simulate : string := "simulate".
Definition Capture : string := "capture".
Definition Modify : string := "modify".
Definition Synthesize : string := "synthesize".

Section HTTPClient.

(** [net/url]: the type of a parsed URL and [url.Parse]. *)
Context {URLType : Type}.
Variable url_Parse : string -> orError URLType.

(** [GetDefaultHoverflyHTTPClient]. [log.Fatalf] ends the process: that is
    the [Error] result, with the line it logs (the format has no verb for
    its argument). *)
Definition GetDefaultHoverflyHTTPClient (tlsVerification : bool) (upstreamProxy : string)
    : orError (http.Client URLType) :=
  let proxyURL :=
    if String.eqb upstreamProxy EmptyString
    then Value None
    else match url_Parse upstreamProxy with
         | Error err =>
             Error ("Could not parse upstream proxy: %!(EXTRA string=" +:+ err +:+ ")")
         | Value u => Value (Some u)
         end in
  match proxyURL with
  | Error msg => Error msg
  | Value proxyURL =>
      Value {| http.CheckRedirect := fun req via => http.ErrUseLastResponse;
               http.clientTransport :=
                 {| http.Proxy := proxyURL;
                    http.TLSClientConfig :=
                      {| http.InsecureSkipVerify := tlsVerification |} |} |}
  end.

End HTTPClient.

(** [matching.MatchingError]. *)
Record MatchingError := mkMatchingError {
  errStatusCode : Z;
  Description : string
}.

Section GetResponse.

(** The request cache behind [hf.CacheMatcher], the simulation behind
    [hf.Simulation], and the three calls [GetResponse] makes into package
    [matching], which is not part of these sources. A cache lookup that
    returns an error is a miss. *)
Context {Cache Sim : Type}.
Variable CacheMatcher_GetResponse : Cache -> RequestDetails -> orError ResponseDetails.
Variable CacheMatcher_SaveRequestResponsePair : Cache -> RequestResponsePair -> Cache.
Variable TemplateMatcher_Match : RequestDetails -> bool -> Sim -> orError ResponseDetails.

(** What [GetResponse] returns: a response and a nil error, or a nil response
    and a matching error. *)
Inductive matchResult : Type :=
  | Matched (response : ResponseDetails)
  | NotMatched (err : MatchingError).

(** [GetResponse], on the cache, the webserver flag and the simulation of the
    receiver. The cache after the call is part of the result. The log line
    written on a miss is left out. *)
Definition GetResponse (cache : Cache) (webserver : bool) (simulation : Sim)
    (requestDetails : RequestDetails) : Cache * matchResult :=
  match CacheMatcher_GetResponse cache requestDetails with
  | Value cachedResponse => (cache, Matched cachedResponse)
  | Error cacheErr =>
      match TemplateMatcher_Match requestDetails webserver simulation with
      | Error err =>
          (cache,
           NotMatched
             {| errStatusCode := 412;
                Description := "Could not find recorded request, please record it first!" |})
      | Value response =>
          (CacheMatcher_SaveRequestResponsePair cache
             {| pairRequest := requestDetails; pairResponse := response |},
           Matched response)
      end
  end.

(** The status code and the text a caller can show for a result. *)
Definition resultStatus (r : matchResult) : Z :=
  match r with
  | Matched response => Status response
  | NotMatched err => errStatusCode err
  end.

Definition resultText (r : matchResult) : string :=
  match r with
  | Matched response => Body response
  | NotMatched err => Description err
  end.

End GetResponse.

Section processRequest.

(** Everything a mode may read or change while it processes a request. *)
Context {World : Type}.

(** The [modes.Mode] interface: [Process] returns a response and an error
    that may be nil. *)
Record Mode := mkMode {
  Process : World -> http.Request -> RequestDetails -> World * http.Response * option string
}.

(** The [models.ResponseDelays] interface behind [hf.ResponseDelays]. *)
Variable GetDelay : RequestDetails -> option ResponseDelay.

(** [models.NewRequestDetailsFromHttpRequest] and [modes.ErrorResponse]. *)
Variable NewRequestDetailsFromHttpRequest : http.Request -> orError RequestDetails.
Variable ErrorResponse : http.Request -> string -> string -> http.Response.

(** [processRequest], on the mode [hf.Cfg.GetMode()] returns and on
    [hf.modeMap]. The result holds the response and the delays that were
    executed, in order. Calling [Process] on a mode that is not in the map
    panics. *)
Definition processRequest (mode : string) (modeMap : gmap string Mode) (w : World)
    (req : http.Request) : orPanic (World * http.Response * list ResponseDelay) :=
  match NewRequestDetailsFromHttpRequest req with
  | Error err =>
      Returns (w, ErrorResponse req err "Could not interpret HTTP request", [])
  | Value requestDetails =>
      match modeMap !! mode with
      | None => Panics "invalid memory address or nil pointer dereference"
      | Some m =>
          let '(w, response, err) := Process m w req requestDetails in
          if bool_decide (err ≠ None) || String.eqb mode Capture
          then Returns (w, response, [])
          else
            match GetDelay requestDetails with
            | Some respDelay => Returns (w, response, [respDelay])
            | None => Returns (w, response, [])
            end
      end
  end.

End processRequest.

Arguments Mode World : clear implicits.

Section DoRequest.

(** [hf.HTTP.Do]: the exchange with the upstream server. *)
Variable Do : http.Request -> orError http.Response.

(** [DoRequest]: the request as the call leaves it, and the response or the
    error. The body is read once and put back before and after the exchange. *)
Definition DoRequest (request : http.Request) : http.Request * orError http.Response :=
  let request :=
    {| http.Method := http.Method request; http.URL := http.URL request;
       http.Host := http.Host request; http.RequestURI := EmptyString;
       http.reqHeader := http.reqHeader request; http.reqBody := http.reqBody request |} in
  match Do request with
  | Error err => (request, Error err)
  | Value resp =>
      (request,
       Value {| http.StatusCode := http.StatusCode resp;
                http.respHeader := http.Header_Set (http.respHeader resp) "hoverfly" "Was-Here";
                http.respBody := http.respBody resp |})
  end.

End DoRequest.

End hoverfly.

(** ** Package [backends]: the Bolt-backed authentication store *)

Module backends.

(** The database behind [BoltAuth.DS]: buckets of keys and values. *)
Abbreviation boltDB := (gmap string (gmap string string)).

Record BoltAuth := mkBoltAuth {
  DS : boltDB;
  TokenBucket : string;
  UserBucket : string
}.

(** [UserBucketName] and [TokenBucketName], the default bucket names. *)
Definition UserBucketName : string := "authbucket".
Definition TokenBucketName : string := "tokenbucket".

(** [Delete] as a function with fuel: one unit per activation. The body is
    the single statement [return b.Delete(key)]; [None] says that the fuel
    ran out before any activation returned. *)
Fixpoint Delete (fuel : nat) (b : BoltAuth) (key : string) : option (BoltAuth * option string) :=
  match fuel with
  | O => None
  | S fuel => Delete fuel b key
  end.

(** The same method as a machine. An activation of [Delete] that has made
    its call waits on the stack for the callee's result. *)
Inductive frame : Type :=
  | DeleteFrame (key : string).

Inductive control : Type :=
  | Calling (key : string)          (* the body of [b.Delete(key)] starts *)
  | Returning (err : option string). (* an activation has returned [err] *)

Record machine := mkMachine {
  ctl : control;
  stack : list frame;
  store : BoltAuth
}.

Inductive step : machine -> machine -> Prop :=
  | step_call key st b :
      (* [return b.Delete(key)]: the call is made, the caller waits *)
      step (mkMachine (Calling key) st b)
           (mkMachine (Calling key) (DeleteFrame key :: st) b)
  | step_return err key st b :
      (* the callee's result is the caller's result *)
      step (mkMachine (Returning err) (DeleteFrame key :: st) b)
           (mkMachine (Returning err) st b).

(** [steps n m m']: [m'] is reached from [m] in [n] steps. *)
Inductive steps : nat -> machine -> machine -> Prop :=
  | steps_O m : steps O m m
  | steps_S n m m' m'' : steps n m m' -> step m' m'' -> steps (S n) m m''.

(** The call [b.Delete(key)] from outside, and the states in which it has
    returned to its caller. *)
Definition initial (b : BoltAuth) (key : string) : machine :=
  mkMachine (Calling key) [] b.

Definition returned (m : machine) : Prop :=
  exists err, ctl m = Returning err /\ stack m = [].

End backends.

(** ** Package [v2]: schema negotiation of the simulation import *)

Module v2.

(** The [meta] object of an import payload; a field that the JSON text does
    not have is [None]. *)
Record MetaView := mkMetaView {
  SchemaVersion : option string;
  HoverflyVersion : option string;
  TimeExported : option string
}.

(** A decoded import payload: the [data] object, left abstract, and [meta]. *)
Record ImportBody (Data : Type) := mkImportBody {
  data : option Data;
  meta : option MetaView
}.
Arguments data {Data} _.
Arguments meta {Data} _.

Definition supportedSchemaVersions : list string := ["v1"; "v2"; "v3"].

(** The outcome of the negotiation: the payload goes on to the decoder of
    its schema version, or the import is rejected with a message. *)
Inductive negotiation : Type :=
  | Accepted (schemaVersion : string)
  | Rejected (message : string).

(** Modelled from the spec: [NewSimulationViewFromResponseBody] is not in the
    sources, only its tests are. This is its schema negotiation: a payload
    without [meta.schemaVersion] and a payload with an unknown schema version
    are rejected, with the messages the spec gives. The texts are the ones
    the tests in [simulation_views_test.go] compare with: they give the whole
    message for an unknown version, and for a payload that has no [meta]
    object at all they expect a message of its own. *)
Definition NewSimulationViewFromResponseBody {Data : Type} (body : ImportBody Data)
    : negotiation :=
  match meta body with
  | None => Rejected ("Invalid JSON, missing " +:+ dquote +:+ "meta" +:+ dquote +:+ " object")
  | Some m =>
      match SchemaVersion m with
      | None =>
          Rejected ("Invalid JSON, missing " +:+ dquote +:+ "meta.schemaVersion"
                    +:+ dquote +:+ " string")
      | Some schemaVersion =>
          if bool_decide (schemaVersion ∈ supportedSchemaVersions)
          then Accepted schemaVersion
          else Rejected ("Invalid simulation: schema version " +:+ schemaVersion +:+
                         " is not supported by this version of Hoverfly, you may need to update Hoverfly")
      end
  end.

(** The message the spec gives for a payload without [meta] or without
    [meta.schemaVersion]. *)
Definition missingSchemaVersion : string :=
  "Invalid JSON, missing " +:+ dquote +:+ "meta.schemaVersion" +:+ dquote +:+ " string".

End v2.

(** ** Remote middleware *)

Module middleware.

Import models.

(** What the POST to the middleware URL comes back with. *)
Inductive reply : Type :=
  | TransportFailure (reason : string)
  | HttpReply (status : Z) (body : string).

Section Remote.

(** The exchange with the remote middleware (the URL and the JSON text sent
    to it), and the JSON encoder and decoder of the payload view. *)
Variable post : string -> string -> reply.
Variable encode : Payload -> string.
Variable decode : string -> orError Payload.

(** Modelled from the spec: [ExecuteMiddlewareRemotely] is not in the
    sources, only its tests are. The payload is posted as JSON; a [200] with
    a JSON body gives the new payload; any other status, a transport failure
    or a parse failure gives the original payload and a failure reason. The
    text for a status other than [200] is the one the tests expect. *)
Definition ExecuteMiddlewareRemotely (middleware : string) (payload : Payload)
    : Payload * option string :=
  match post middleware (encode payload) with
  | TransportFailure reason => (payload, Some reason)
  | HttpReply status body =>
      if status =? 200
      then match decode body with
           | Value newPayload => (newPayload, None)
           | Error reason => (payload, Some reason)
           end
      else (payload, Some "Error when communicating with remote middleware")
  end.

End Remote.

End middleware.

(** ** Concrete data for the examples *)

Module examples.

Import models.

(** Field matchers as a destination to match exactly, as in the pair
    [destination.exactMatch = test-server.com] of the import tests. *)
Definition destinationMatcher (destination : string) : RequestMatcher string :=
  {| Matchers := destination; RequiresState := None |}.

Definition response (status : Z) (body : string) : ResponseDetails :=
  {| Status := status; Body := body; Headers := ∅; TransitionsState := None |}.

Definition pairA : RequestMatcherResponsePair string :=
  {| pairRequestMatcher := destinationMatcher "test-server.com";
     Response := response 200 "first" |}.

Definition pairB : RequestMatcherResponsePair string :=
  {| pairRequestMatcher := destinationMatcher "test-server.com";
     Response := response 200 "second" |}.


Definition pairOther : RequestMatcherResponsePair string :=
  {| pairRequestMatcher := destinationMatcher "example.com";
     Response := response 200 "ok" |}.

(** The request cache as a list of recorded pairs, the newest first: a
    stand-in for [matching.CacheMatcher], which is not in the sources. *)
Definition cacheGetResponse (cache : list RequestResponsePair) (req : RequestDetails)
    : orError ResponseDetails :=
  match List.find (fun saved => bool_decide (pairRequest saved = req)) cache with
  | Some saved => Value (pairResponse saved)
  | None => Error "Could not find recorded request in cache"
  end.

Definition cacheSave (cache : list RequestResponsePair) (saved : RequestResponsePair)
    : list RequestResponsePair :=
  saved :: cache.

(** The template store of [request_template_store.go] as the matcher behind
    [GetResponse]. *)
Definition templateMatch (req : RequestDetails) (webserver : bool)
    (simulation : matching.RequestTemplateStore) : orError ResponseDetails :=
  match matching.GetPayload simulation (reqHeaders req) with
  | Returns (Value payload) => Value (payloadResponse payload)
  | Returns (Error err) => Error err
  | Panics reason => Error reason
  end.


Definition requestB : RequestDetails :=
  {| reqPath := "/b"; reqMethod := "GET"; reqDestination := "example.com";
     reqScheme := "http"; reqQuery := EmptyString; reqBody := EmptyString;
     reqHeaders := ∅ |}.

Definition requestPath1 : RequestDetails :=
  {| reqPath := "/path1"; reqMethod := "GET"; reqDestination := "www.virtual.com";
     reqScheme := "http"; reqQuery := EmptyString; reqBody := EmptyString;
     reqHeaders := {[ "Header" := ["value1"] ]} |}.

Definition responsePath1 : ResponseDetails :=
  {| Status := 201; Body := "body1"; Headers := {[ "Header" := ["value1"] ]};
     TransitionsState := None |}.

Definition recordedPath1 : RequestResponsePair :=
  {| pairRequest := requestPath1; pairResponse := responsePath1 |}.

(** The HTTP form of a request description. *)
Definition httpRequestOf (req : RequestDetails) : http.Request :=
  {| http.Method := reqMethod req;
     http.URL := reqScheme req +:+ "://" +:+ reqDestination req +:+ reqPath req;
     http.Host := reqDestination req;
     http.RequestURI := reqPath req;
     http.reqHeader := reqHeaders req;
     http.reqBody := reqBody req |}.

Definition newRequestDetails (known : list RequestDetails) (req : http.Request)
    : orError RequestDetails :=
  match List.find (fun d => String.eqb (http.URL (httpRequestOf d)) (http.URL req)) known with
  | Some d => Value d
  | None => Error "could not read the request"
  end.

Definition errorResponse (req : http.Request) (err msg : string) : http.Response :=
  {| http.StatusCode := 502; http.respHeader := ∅;
     http.respBody := msg +:+ ": " +:+ err |}.

(** A stand-in for [modes.SimulateMode], in the manner of the stubs of the
    mode tests: the response comes from [GetResponse] on the request cache and
    is rebuilt from the stored status, body and headers. *)
Definition simulateStub : hoverfly.Mode (list RequestResponsePair) :=
  {| hoverfly.Process := fun cache req details =>
       match hoverfly.GetResponse cacheGetResponse cacheSave templateMatch
               cache false [] details with
       | (cache, hoverfly.Matched response) =>
           (cache,
            {| http.StatusCode := Status response; http.respHeader := Headers response;
               http.respBody := Body response |},
            None)
       | (cache, hoverfly.NotMatched err) =>
           (cache,
            {| http.StatusCode := hoverfly.errStatusCode err; http.respHeader := ∅;
               http.respBody := hoverfly.Description err |},
            Some (hoverfly.Description err))
       end |}.

(** A stand-in for [modes.CaptureMode]: the upstream answer of the capture
    test, handed on by [DoRequest]. *)
Definition upstream (req : http.Request) : orError http.Response :=
  if String.eqb (http.Host req) "error.com"
  then Error "Could not reach error.com"
  else Value {| http.StatusCode := 200; http.respHeader := ∅; http.respBody := "test" |}.

Definition captureStub : hoverfly.Mode (list RequestResponsePair) :=
  {| hoverfly.Process := fun cache req details =>
       match snd (hoverfly.DoRequest upstream req) with
       | Value response => (cache, response, None)
       | Error err => (cache, errorResponse req err "There was an error", Some err)
       end |}.

Definition modeMap : gmap string (hoverfly.Mode (list RequestResponsePair)) :=
  {[ hoverfly.Simulate := simulateStub; hoverfly.Capture := captureStub ]}.

(** A delay rule for every request to [www.virtual.com], with a pattern
    without metacharacters, for which matching is a substring test. *)
Definition literalMatch (pattern text : string) : bool :=
  strings.Contains text pattern.

Definition delayRules : list ResponseDelay :=
  [ {| UrlPattern := "example.org"; HttpMethod := EmptyString; Delay := 100 |};
    {| UrlPattern := "virtual.com"; HttpMethod := "GET"; Delay := 250 |};
    {| UrlPattern := "virtual"; HttpMethod := EmptyString; Delay := 500 |} ].

(** The template store and the two spellings of a header name for the
    header matcher. *)
Definition jsonTemplate : matching.RequestTemplatePayload :=
  {| matching.requestTemplate :=
       {| matching.Path := EmptyString; matching.Method := EmptyString;
          matching.Destination := EmptyString; matching.Scheme := EmptyString;
          matching.Query := EmptyString; matching.Body := EmptyString;
          matching.Headers := {[ "Content-Type" := ["application/json"] ]} |};
     matching.Response := response 200 "ok" |}.

Definition canonicalHeader : http.Header := {[ "Content-Type" := ["application/json"] ]}.

(** The remote middleware of the tests: a handler that answers 404, one that
    answers 200 without a body, and a decoder that accepts one text only. *)
Definition postNotOkay (url body : string) : middleware.reply :=
  middleware.HttpReply 404 EmptyString.

Definition postOkayButNoResponse (url body : string) : middleware.reply :=
  middleware.HttpReply 200 EmptyString.

Definition postUnreachable (url body : string) : middleware.reply :=
  middleware.TransportFailure "connection refused".

Definition encodeBody (payload : Payload) : string := Body (payloadResponse payload).

Definition decodeBody (text : string) : orError Payload :=
  if String.eqb text EmptyString then Error "unexpected end of JSON input"
  else Value {| payloadResponse := response 200 text;
                payloadRequest := emptyRequestDetails |}.

Definition testPayload : Payload :=
  {| payloadResponse :=
       {| Status := 0; Body := "Normal body"; Headers := ∅; TransitionsState := None |};
     payloadRequest := emptyRequestDetails |}.

(** The import payloads of the schema tests: one without [meta], one whose
    [meta] has no [schemaVersion], and one with the schema version [r3]. *)
Definition bodyWithoutMeta : v2.ImportBody unit :=
  {| v2.data := Some tt; v2.meta := None |}.

Definition bodyWithoutSchemaVersion : v2.ImportBody unit :=
  {| v2.data := Some tt;
     v2.meta := Some {| v2.SchemaVersion := None;
                        v2.HoverflyVersion := Some "v0.11.0";
                        v2.TimeExported := Some "2017-02-23T12:43:48Z" |} |}.

Definition bodyWithSchemaVersion (schemaVersion : string) : v2.ImportBody unit :=
  {| v2.data := Some tt;
     v2.meta := Some {| v2.SchemaVersion := Some schemaVersion;
                        v2.HoverflyVersion := Some "v0.11.0";
                        v2.TimeExported := Some "2017-02-23T12:43:48Z" |} |}.

End examples.

(** ** The [hoverctl] wrapper: talking to a Hoverfly instance *)

Module wrapper.

(** The line feed and what [fmt] prints for an [int] under [%v]. *)
Definition newline : string := String (ascii_of_nat 10) EmptyString.

(** [Target], with the fields the sources read. *)
Record Target := mkTarget {
  Name : string;
  Host : string;
  AdminPort : Z;
  ProxyPort : Z;
  AuthToken : string;
  Pid : Z
}.

Definition v2ApiLogs : string := "/api/v2/logs".

(** [IsLocal]. *)
Definition IsLocal (url : string) : bool :=
  strings.Contains url "localhost" || strings.Contains url "127.0.0.1".

(** [BuildURL]. *)
Definition BuildURL (target : Target) (endpoint : string) : string :=
  if negb (strings.HasPrefix (Host target) "http://")
     && negb (strings.HasPrefix (Host target) "https://")
  then
    if IsLocal (Host target)
    then "http://" +:+ Host target +:+ ":" +:+ strconv.Itoa (AdminPort target) +:+ endpoint
    else "https://" +:+ Host target +:+ ":" +:+ strconv.Itoa (AdminPort target) +:+ endpoint
  else Host target +:+ ":" +:+ strconv.Itoa (AdminPort target) +:+ endpoint.

(** [Header.Add]: the value is appended to the values of the canonical key. *)
Definition Header_Add (h : http.Header) (key value : string) : http.Header :=
  <[http.CanonicalMIMEHeaderKey key :=
      (default [] (h !! http.CanonicalMIMEHeaderKey key) ++ [value])%list]> h.

(** Two requests that differ in their headers at most. *)
Definition differ_in_headers_only (a b : http.Request) : Prop :=
  http.Method a = http.Method b /\ http.URL a = http.URL b /\ http.Host a = http.Host b /\
  http.RequestURI a = http.RequestURI b /\ http.reqBody a = http.reqBody b.

Section doRequest.

(** [http.NewRequest], which fails on a method or a URL it cannot parse, and
    [http.DefaultClient.Do]. *)
Variable http_NewRequest : string -> string -> string -> orError http.Request.
Variable Do : http.Request -> orError http.Response.

Definition withHeader (request : http.Request) (h : http.Header) : http.Request :=
  {| http.Method := http.Method request; http.URL := http.URL request;
     http.Host := http.Host request; http.RequestURI := http.RequestURI request;
     http.reqHeader := h; http.reqBody := http.reqBody request |}.

(** [doRequest]. The headers are a map that may be nil; they are added in
    the order [map_to_list] gives. *)
Definition doRequest (target : Target) (method url body : string)
    (headers : option (gmap string string)) : orError http.Response :=
  let url := BuildURL target url in
  match http_NewRequest method url body with
  | Error _ =>
      Error ("Could not connect to Hoverfly at " +:+ Host target +:+ ":" +:+
             strconv.Itoa (AdminPort target))
  | Value request =>
      let request :=
        match headers with
        | Some headers =>
            fold_left (fun request kv =>
                         withHeader request (Header_Add (http.reqHeader request) kv.1 kv.2))
              (map_to_list headers) request
        | None => request
        end in
      let request :=
        if negb (String.eqb (AuthToken target) EmptyString)
        then withHeader request
               (Header_Add (http.reqHeader request) "Authorization"
                  ("Bearer " +:+ AuthToken target))
        else request in
      match Do request with
      | Error _ =>
          Error ("Could not connect to Hoverfly at " +:+ Host target +:+ ":" +:+
                 strconv.Itoa (AdminPort target))
      | Value response =>
          if http.StatusCode response =? 401
          then Error ("Hoverfly requires authentication" +:+ newline +:+ newline +:+
                      "Run `hoverctl login -t " +:+ Name target +:+ "`")
          else Value response
      end
  end.

(** [GetLogs]. The slice expression [responseBody[9 : len(responseBody)-2]]
    panics unless [9 <= len(responseBody) - 2]. *)
Definition GetLogs (target : Target) (format : string) : orPanic (orError (list string)) :=
  let headers : gmap string string := {[ "Content-Type" := "text/plain" ]} in
  let headers :=
    if String.eqb format "json"
    then <["Content-Type" := "application/json"]> headers
    else headers in
  match doRequest target "GET" v2ApiLogs EmptyString (Some headers) with
  | Error err => Returns (Error err)
  | Value response =>
      let responseBody := http.respBody response in
      if String.eqb format "json"
      then
        if strings.len responseBody - 2 <? 9
        then Panics "slice bounds out of range"
        else
          let trimmedBody :=
            String.substring 9 (String.length responseBody - 2 - 9) responseBody in
          Returns (Value (strings.SplitAfter trimmedBody "},"))
      else Returns (Value (strings.Split responseBody newline))
  end.

End doRequest.

Section checkPorts.

(** [net.Listen("tcp", address)]: whether the address can be bound. The
    listener is closed at once, so nothing stays bound. *)
Variable Listen : string -> bool.

(** [checkPorts]. *)
Fixpoint checkPorts (ports : list Z) : option string :=
  match ports with
  | [] => None
  | port :: rest =>
      if Listen (":" +:+ strconv.Itoa port)
      then checkPorts rest
      else Some ("Could not start Hoverfly" +:+ newline +:+ newline +:+ "Port " +:+
                 strconv.Itoa port +:+ " was not free")
  end.

End checkPorts.

End wrapper.

(** ** The [hoverctl] command [diff-store get-all] *)

Module cmd.

(** The views of a stored diff; they are declared in [handlers/v2], and
    given here with the fields the command prints, all of them printed with
    [%s]. [diffReports] is the field [DiffReport] of the Go struct. *)
Record DiffReportEntry := mkDiffReportEntry {
  Field : string;
  Expected : string;
  Actual : string
}.

Record DiffReport := mkDiffReport {
  DiffEntries : list DiffReportEntry
}.

Record SimpleRequestDefinitionView := mkSimpleRequest {
  Method : string;
  Host : string;
  Path : string;
  Query : string
}.

Record ResponseDiffForRequestView := mkResponseDiff {
  Request : SimpleRequestDefinitionView;
  diffReports : list DiffReport
}.

(** [fmt.Sprintf("(%d)"+errorMsgTemplate, index+1, field, expected, actual)]. *)
Definition errorMsg (index : Z) (entry : DiffReportEntry) : string :=
  "(" +:+ strconv.Itoa index +:+ ")The " +:+ dquote +:+ Field entry +:+ dquote +:+
  " parameter is not same - the expected value was [" +:+ Expected entry +:+
  "], but the actual one [" +:+ Actual entry +:+ "]" +:+ wrapper.newline.

(** A [range] loop that also needs the index: the elements with their
    indices, from [start]. *)
Fixpoint indexed {A : Type} (start : Z) (l : list A) : list (Z * A) :=
  match l with
  | [] => []
  | x :: rest => (start, x) :: indexed (start + 1) rest
  end.

(** [diffReportMessage]. *)
Definition diffReportMessage (report : DiffReport) : string :=
  fold_left (fun msg ie => msg +:+ errorMsg (ie.1 + 1) ie.2)
    (indexed 0 (DiffEntries report)) EmptyString.

(** The body of the outer loop of the command: [output] is assigned the
    heading of the request, then each diff of the request is added to it. *)
Definition reportRequest (output : string) (diffsWithRequest : ResponseDiffForRequestView)
    : string :=
  let output :=
    wrapper.newline +:+ "For the request with the simple definition:" +:+ wrapper.newline +:+
    wrapper.newline +:+ " Method: " +:+ Method (Request diffsWithRequest) +:+ " " +:+
    wrapper.newline +:+ " Host: " +:+ Host (Request diffsWithRequest) +:+ " " +:+
    wrapper.newline +:+ " Path: " +:+ Path (Request diffsWithRequest) +:+ " " +:+
    wrapper.newline +:+ " Query:  " +:+ Query (Request diffsWithRequest) +:+ " " +:+
    wrapper.newline +:+ wrapper.newline +:+ "have been recorded " +:+
    strconv.Itoa (Z.of_nat (length (diffReports diffsWithRequest))) +:+ " diff(s):" +:+
    wrapper.newline in
  fold_left (fun output id =>
               output +:+ wrapper.newline +:+ "[" +:+ strconv.Itoa (id.1 + 1) +:+ ".]" +:+
               wrapper.newline +:+ diffReportMessage id.2 +:+ wrapper.newline)
    (indexed 0 (diffReports diffsWithRequest)) output.

(** What the command does: it ends the process with an error, or it prints
    lines and returns. *)
Inductive outcome : Type :=
  | Exits (err : string)
  | Prints (lines : list string).

(** The [Run] function of [get-all], for a target that passes
    [checkTargetAndExit]. [diffs] is what [wrapper.GetAllDiffs] returns;
    [handleIfError] ends the process on an error. *)
Definition getAllDiffStore (args : list string)
    (diffs : orError (list ResponseDiffForRequestView)) : outcome :=
  if (length args =? 0)%nat
  then
    match diffs with
    | Error err => Exits err
    | Value diffs =>
        let output := fold_left reportRequest diffs EmptyString in
        if String.eqb output EmptyString
        then Prints ["There are no diffs stored in Hoverfly"]
        else Prints [output]
    end
  else Prints [].

End cmd.

(** ** The [hoverctl] of the first versions: simulation names *)

Module hoverctl.

(** [splitHoverfileName]: the first two pieces of the key between slashes.
    Indexing the second piece panics when the key has no slash. *)
Definition splitHoverfileName (hoverfileKey : string) : orPanic (string * string) :=
  let s := strings.Split hoverfileKey "/" in
  match s with
  | vendor :: name :: _ => Returns (vendor, name)
  | _ => Panics "index out of range"
  end.

(** [buildHoverfileName]. *)
Definition buildHoverfileName (vendor api : string) : string :=
  vendor +:+ "." +:+ api +:+ ".hfile".




Section handlers.

(** [filepath.Join]; [cmd.Start()], which gives the new process its pid or
    fails and leaves [cmd.Process] nil; and [os.Process.Kill], with the error
    it returns. *)
Variable filepath_Join : string -> string -> string.
Variable Start : option Z.
Variable Kill : Z -> option string.



End handlers.

End hoverctl.

(** ** Importing recorded payloads *)

Module dbclient.

Section ImportPayloads.

(** The request and the response of a payload, the cache behind
    [d.Cache] and the hooks behind [d.Hooks]. *)
Context {Request Response Cache Hooks : Type}.

Record Payload := mkPayload {
  payloadResponse : Response;
  payloadRequest : Request;
  ID : string
}.

Record DBClient := mkDBClient {
  dbCache : Cache;
  dbHooks : Hooks
}.

(** [RequestContainer{Details: request}.Hash()], [Payload.Encode],
    [Hooks.Fire] for the action [ActionTypeRequestCaptured] with the encoded
    payload as the entry's data (the error it returns is logged only), and
    [Cache.Set] (whose error is dropped). *)
Variable Hash : Request -> string.
Variable Encode : Payload -> orError string.
Variable Hooks_Fire : Hooks -> string -> Hooks.
Variable Cache_Set : Cache -> string -> string -> Cache.

(** The counters of the loop. *)
Record counters := mkCounters {
  success : Z;
  failed : Z
}.

(** The body of the loop over the payloads. *)
Definition importPayload (st : DBClient * counters) (pl : Payload) : DBClient * counters :=
  let '(d, n) := st in
  let key := Hash (payloadRequest pl) in
  let pl := {| payloadResponse := payloadResponse pl; payloadRequest := payloadRequest pl;
               ID := key |} in
  match Encode pl with
  | Error _ => (d, {| success := success n; failed := strconv.wrap (failed n + 1) |})
  | Value bts =>
      ({| dbCache := Cache_Set (dbCache d) key bts; dbHooks := Hooks_Fire (dbHooks d) bts |},
       {| success := strconv.wrap (success n + 1); failed := failed n |})
  end.

(** [ImportPayloads]: the client afterwards, the totals that are logged
    (total, successful, failed) if any, and the error returned. *)
Definition ImportPayloads (d : DBClient) (payloads : list Payload)
    : DBClient * option (Z * Z * Z) * option string :=
  if (0 <? length payloads)%nat
  then
    let '(d, n) := fold_left importPayload payloads (d, {| success := 0; failed := 0 |}) in
    (d, Some (Z.of_nat (length payloads), success n, failed n), None)
  else (d, None, Some "Bad request. Nothing to import!").

End ImportPayloads.

Arguments Payload : clear implicits.
Arguments DBClient : clear implicits.

End dbclient.

(** ** The JavaScript lexer of the vendored [parse/js] package *)

Module js.

(** A byte by its character. *)
Definition ch (c : ascii) : Z := Z.of_nat (nat_of_ascii c).

(** The lexer state: the bytes of [buffer.Lexer], read in full, and its
    position, and the template flag. [Peek] gives [0] behind the end of the
    buffer; positions are counted from the start of the buffer, so that
    [Pos] and [Rewind] are exact inverses inside a token. *)
Record Lexer := mkLexer {
  buf : list Z;
  pos : nat;
  templateState : bool
}.

Definition Peek (l : Lexer) (i : nat) : Z := nth (pos l + i) (buf l) 0.

Definition Move (n : Z) (l : Lexer) : Lexer :=
  {| buf := buf l; pos := Z.to_nat (Z.of_nat (pos l) + n); templateState := templateState l |}.

Definition Pos (l : Lexer) : nat := pos l.


(** The bytes between two positions, as [Shift] returns them. *)
Definition slice (from to : nat) (l : Lexer) : list Z :=
  take (to - from) (drop from (buf l)).













(** [consumeLongPunctuatorToken]. *)
Definition consumeLongPunctuatorToken (l : Lexer) : bool * Lexer :=
  let c := Peek l 0 in
  if (c =? ch "!") || (c =? ch "=") || (c =? ch "+") || (c =? ch "-") || (c =? ch "*") ||
     (c =? ch "/") || (c =? ch "%") || (c =? ch "&") || (c =? ch "|") || (c =? ch "^")
  then
    let l := Move 1 l in
    if Peek l 0 =? ch "="
    then
      let l := Move 1 l in
      if ((c =? ch "!") || (c =? ch "=")) && (Peek l 0 =? ch "=")
      then (true, Move 1 l)
      else (true, l)
    else if ((c =? ch "+") || (c =? ch "-") || (c =? ch "&") || (c =? ch "|")) &&
            (Peek l 0 =? c)
    then (true, Move 1 l)
    else if (c =? ch "=") && (Peek l 0 =? ch ">")
    then (true, Move 1 l)
    else (true, l)
  else
    let l := Move 1 l in
    let l :=
      if Peek l 0 =? c
      then
        let l := Move 1 l in
        if (c =? ch ">") && (Peek l 0 =? ch ">") then Move 1 l else l
      else l in
    if Peek l 0 =? ch "="
    then (true, Move 1 l)
    else (true, l).

(** The punctuators that start with a byte [consumeLongPunctuatorToken]
    is called on, from the list at [PunctuatorToken], and [=>], which the
    lexer knows too. *)
Definition punctuators : list string :=
  [ "<"; ">"; "<="; ">="; "=="; "!="; "==="; "!=="; "+"; "-"; "*"; "%"; "++"; "--";
    "<<"; ">>"; ">>>"; "&"; "|"; "^"; "!"; "&&"; "||"; "="; "+="; "-="; "*="; "%=";
    "<<="; ">>="; ">>>="; "&="; "|="; "^="; "/"; "/="; "=>" ].

Definition bytes (s : string) : list Z :=
  map ch (list_ascii_of_string s).

(** Whether the input starts with a text. *)
Fixpoint startsWith (p input : list Z) : bool :=
  match p, input with
  | [], _ => true
  | x :: p, y :: input => (y =? x) && startsWith p input
  | _ :: _, [] => false
  end.

Fixpoint sameBytes (a b : list Z) : bool :=
  match a, b with
  | [], [] => true
  | x :: a, y :: b => (y =? x) && sameBytes a b
  | _, _ => false
  end.

(** Whether the first [k] bytes of the input are a punctuator and no
    punctuator that the input starts with is longer. *)
Definition longestPunctuator (k : nat) (input : list Z) : bool :=
  (1 <=? k)%nat && (k <=? length input)%nat &&
  existsb (fun p => sameBytes p (take k input)) (map bytes punctuators) &&
  forallb (fun p => implb (startsWith p input) (length p <=? k)%nat) (map bytes punctuators).







Section consumeCommentToken.

(** [PeekRune(0)]: the code point that the bytes at the position encode. *)
Variable PeekRune : Lexer -> Z.





End consumeCommentToken.

End js.

(** ** Data for the command line tools *)

Module cases.

(** A local target without a token and a remote one with a token. *)
Definition localTarget : wrapper.Target :=
  {| wrapper.Name := "local"; wrapper.Host := "localhost"; wrapper.AdminPort := 8888;
     wrapper.ProxyPort := 8500; wrapper.AuthToken := EmptyString; wrapper.Pid := 0 |}.

Definition remoteTarget : wrapper.Target :=
  {| wrapper.Name := "remote"; wrapper.Host := "hoverfly.example.com";
     wrapper.AdminPort := 8888; wrapper.ProxyPort := 8500;
     wrapper.AuthToken := "token"; wrapper.Pid := 0 |}.

(** A request constructor that accepts everything, and a Hoverfly that
    answers the logs endpoint in the two formats and anything else with 401. *)
Definition newRequest (method url body : string) : orError http.Request :=
  Value {| http.Method := method; http.URL := url; http.Host := EmptyString;
           http.RequestURI := EmptyString; http.reqHeader := ∅; http.reqBody := body |}.

Definition jsonLogs : string :=
  "{" +:+ dquote +:+ "logs" +:+ dquote +:+ ":[{" +:+ dquote +:+ "msg" +:+ dquote +:+
  ":1},{" +:+ dquote +:+ "msg" +:+ dquote +:+ ":2}]}".

Definition textLogs : string :=
  "serving proxy" +:+ wrapper.newline +:+ "current proxy configuration".

Definition serveLogs (request : http.Request) : orError http.Response :=
  if String.eqb (http.URL request) "http://localhost:8888/api/v2/logs"
  then
    if bool_decide (http.reqHeader request !! "Content-Type" = Some ["application/json"])
    then Value {| http.StatusCode := 200; http.respHeader := ∅; http.respBody := jsonLogs |}
    else Value {| http.StatusCode := 200; http.respHeader := ∅; http.respBody := textLogs |}
  else Value {| http.StatusCode := 401; http.respHeader := ∅; http.respBody := EmptyString |}.

(** Ports: 8888 is taken, every other one is free. *)
Definition listen (address : string) : bool := negb (String.eqb address ":8888").

(** Two requests with stored diffs. *)
Definition diffsOfTwoRequests : list cmd.ResponseDiffForRequestView :=
  [ {| cmd.Request := {| cmd.Method := "GET"; cmd.Host := "first.example.com";
                         cmd.Path := "/one"; cmd.Query := EmptyString |};
       cmd.diffReports :=
         [ {| cmd.DiffEntries :=
                [ {| cmd.Field := "body"; cmd.Expected := "a"; cmd.Actual := "b" |} ] |} ] |};
    {| cmd.Request := {| cmd.Method := "GET"; cmd.Host := "second.example.com";
                         cmd.Path := "/two"; cmd.Query := EmptyString |};
       cmd.diffReports :=
         [ {| cmd.DiffEntries :=
                [ {| cmd.Field := "status"; cmd.Expected := "200"; cmd.Actual := "500" |} ] |} ] |} ].




(** Payloads whose requests are their own hashes; a payload encodes as its
    id and its response, unless the response is empty. *)
Definition encode (pl : dbclient.Payload string string) : orError string :=
  if String.eqb (dbclient.payloadResponse pl) EmptyString
  then Error "json: unsupported value"
  else Value (dbclient.ID pl +:+ ":" +:+ dbclient.payloadResponse pl).

Definition emptyClient : dbclient.DBClient (gmap string string) (list string) :=
  {| dbclient.dbCache := ∅; dbclient.dbHooks := [] |}.

Definition fire (hooks : list string) (data : string) : list string := (hooks ++ [data])%list.

Definition set (cache : gmap string string) (key value : string) : gmap string string :=
  <[key := value]> cache.

Definition payloads : list (dbclient.Payload string string) :=
  [ {| dbclient.payloadResponse := "pong"; dbclient.payloadRequest := "GET /ping";
       dbclient.ID := "stale" |};
    {| dbclient.payloadResponse := EmptyString; dbclient.payloadRequest := "GET /nothing";
       dbclient.ID := EmptyString |} ].


(** An upstream proxy setting that parses and one that does not. *)
Definition parseProxy (text : string) : orError string :=
  if strings.HasPrefix text "http://" then Value text else Error "missing protocol scheme".

(** A request with the JSON content type, which the template
    [examples.jsonTemplate] matches. *)
Definition requestJson : models.RequestDetails :=
  {| models.reqPath := "/json"; models.reqMethod := "POST";
     models.reqDestination := "example.com"; models.reqScheme := "http";
     models.reqQuery := EmptyString; models.reqBody := "{}";
     models.reqHeaders := examples.canonicalHeader |}.

(** The lexer in a line of JavaScript, at a byte. *)
Definition lexerAt (text : string) (position : nat) : js.Lexer :=
  {| js.buf := js.bytes text; js.pos := position; js.templateState := false |}.

End cases.

(** * Properties *)

(** Decidable facts about concrete data, by evaluation. *)
Ltac by_evaluation := apply (bool_decide_unpack _); vm_compute; exact I.

(** ** [strconv] *)

Section strconv_facts.

Import strconv.






Lemma wrap_small (z : Z) : minInt <= z <= maxInt -> wrap z = z.
Proof.
  unfold wrap, minInt, maxInt. intros Hz.
  rewrite Z.mod_small by lia. lia.
Qed.

End strconv_facts.

(** ** [AddPair] *)

Section AddPair_facts.

Import models.
Context {Fields : Type} `{!EqDecision Fields}.
Implicit Types (this : Simulation Fields) (pair : RequestMatcherResponsePair Fields).
Implicit Types (m : RequestMatcher Fields).

(** The loop finds a duplicate exactly when some saved pair has the matcher;
    the initial value of [duplicate] only shows when nothing is saved. *)
Lemma AddPair_loop_true m saved d :
  AddPair_loop m saved d = true <->
  (saved = [] /\ d = true) \/ m ∈ pairRequestMatcher <$> saved.
Proof.
  revert d. induction saved as [|q saved IH]; intros d; cbn.
  - rewrite elem_of_nil. tauto.
  - unfold DeepEqual. case_bool_decide as Hq.
    + subst m. split; [intros _; right; left|reflexivity].
    + rewrite IH, elem_of_cons. split.
      * intros [[_ ?]|?]; [discriminate|auto].
      * intros [[? _]|[?|?]]; [discriminate|contradiction|auto].
Qed.

Lemma AddPair_duplicate this pair :
  pairRequestMatcher pair ∈ pairRequestMatcher <$> matchingPairs this ->
  AddPair this pair = this.
Proof.
  intros Hin. unfold AddPair.
  assert (AddPair_loop (pairRequestMatcher pair) (matchingPairs this) false = true) as ->
    by (apply AddPair_loop_true; auto).
  reflexivity.
Qed.

Lemma AddPair_fresh this pair :
  pairRequestMatcher pair ∉ pairRequestMatcher <$> matchingPairs this ->
  AddPair this pair =
    {| matchingPairs := matchingPairs this ++ [pair];
       ResponseDelays := ResponseDelays this |}.
Proof.
  intros Hnin. unfold AddPair.
  destruct (AddPair_loop _ _ false) eqn:Hloop; [|reflexivity].
  apply AddPair_loop_true in Hloop as [[_ ?]|?]; [discriminate|contradiction].
Qed.

Lemma AddPair_NoDup this pair :
  NoDup (pairRequestMatcher <$> matchingPairs this) ->
  NoDup (pairRequestMatcher <$> matchingPairs (AddPair this pair)).
Proof.
  intros Hnd.
  destruct (decide (pairRequestMatcher pair ∈ pairRequestMatcher <$> matchingPairs this))
    as [Hin|Hnin].
  - now rewrite AddPair_duplicate.
  - rewrite AddPair_fresh by assumption. cbn.
    rewrite fmap_app. apply NoDup_app. split; [assumption|]. split.
    + cbn. intros x Hx Hx'. apply list_elem_of_singleton in Hx'. now subst x.
    + cbn. apply NoDup_singleton.
Qed.

Lemma AddPairs_NoDup this pairs :
  NoDup (pairRequestMatcher <$> matchingPairs this) ->
  NoDup (pairRequestMatcher <$> matchingPairs (AddPairs this pairs)).
Proof.
  unfold AddPairs. revert this.
  induction pairs as [|pair pairs IH]; intros this Hnd; cbn; [assumption|].
  apply IH, AddPair_NoDup, Hnd.
Qed.

(** C3. [AddPair] leaves the simulation as it is when a saved pair already
    has a request matcher structurally equal to the new pair's, and appends
    the new pair at the end otherwise.  Hence absence of duplicate matchers
    is kept by any run of [AddPair] calls, and a simulation built from
    [NewSimulation] by [AddPair] calls alone has no two pairs with the same
    request matcher. *)
Theorem AddPair_skips_duplicates this pair :
  ((exists saved, saved ∈ matchingPairs this /\
                  pairRequestMatcher saved = pairRequestMatcher pair) ->
   AddPair this pair = this) /\
  ((forall saved, saved ∈ matchingPairs this ->
                  pairRequestMatcher saved <> pairRequestMatcher pair) ->
   matchingPairs (AddPair this pair) = (matchingPairs this ++ [pair])%list /\
   ResponseDelays (AddPair this pair) = ResponseDelays this) /\
  (forall pairs,
     NoDup (pairRequestMatcher <$> matchingPairs this) ->
     NoDup (pairRequestMatcher <$> matchingPairs (AddPairs this pairs))) /\
  (forall (pairs : list (RequestMatcherResponsePair Fields)) i j p q,
     matchingPairs (AddPairs NewSimulation pairs) !! i = Some p ->
     matchingPairs (AddPairs NewSimulation pairs) !! j = Some q ->
     pairRequestMatcher p = pairRequestMatcher q -> i = j).
Proof.
  repeat split.
  - intros (saved & Hin & Heq). apply AddPair_duplicate.
    rewrite <- Heq. now apply list_elem_of_fmap_2.
  - rewrite AddPair_fresh; [reflexivity|].
    intros (saved & Heq & Hin)%list_elem_of_fmap. now apply (H saved).
  - rewrite AddPair_fresh; [reflexivity|].
    intros (saved & Heq & Hin)%list_elem_of_fmap. now apply (H saved).
  - apply AddPairs_NoDup.
  - intros pairs i j p q Hi Hj Heq.
    assert (NoDup (pairRequestMatcher <$> matchingPairs (AddPairs NewSimulation pairs)))
      as Hnd by (apply AddPairs_NoDup; cbn; apply NoDup_nil_2).
    eapply NoDup_lookup; [exact Hnd| |].
    + rewrite list_lookup_fmap, Hi. reflexivity.
    + rewrite list_lookup_fmap, Hj. cbn. now rewrite Heq.
Qed.

End AddPair_facts.

(** ** [AddPairInSequence] *)

Section AddPairInSequence_facts.

Import models.
Context {Fields : Type} `{!EqDecision Fields}.
Implicit Types (this : Simulation Fields) (pair p q : RequestMatcherResponsePair Fields).
Implicit Types (m : RequestMatcher Fields) (l : seqLoop Fields).

(** A saved pair whose field matchers differ is passed over. *)
Lemma body_other l q :
  Matchers (pairRequestMatcher q) <> Matchers (pairRequestMatcher (loopPair l)) ->
  AddPairInSequence_body l q =
    {| loopPair := loopPair l; loopState := loopState l; counter := counter l;
       updated := updated l ++ [q] |}.
Proof.
  intros Hne. unfold AddPairInSequence_body, DeepEqual.
  case_bool_decide as Heq; [|reflexivity].
  exfalso. apply Hne. now inversion Heq.
Qed.

Lemma fold_other qs l :
  Forall (fun q => Matchers (pairRequestMatcher q) <> Matchers (pairRequestMatcher (loopPair l))) qs ->
  fold_left AddPairInSequence_body qs l =
    {| loopPair := loopPair l; loopState := loopState l; counter := counter l;
       updated := updated l ++ qs |}.
Proof.
  revert l. induction qs as [|q qs IH]; intros l Hall; cbn.
  - rewrite app_nil_r. now destruct l.
  - inversion Hall as [|? ? Hq Hqs]; subst.
    rewrite body_other by assumption. rewrite IH by exact Hqs. cbn.
    now rewrite <- app_assoc.
Qed.












End AddPairInSequence_facts.

Section AddPair_examples.

Import models examples.

(** [AddPair] at concrete pairs: [pairB] repeats the matcher of [pairA] and is
    skipped, [pairOther] is appended. *)
Lemma AddPair_skips_duplicates_witness :
  AddPair (AddPair NewSimulation pairA) pairB = AddPair NewSimulation pairA /\
  matchingPairs (AddPair (AddPair NewSimulation pairA) pairOther) = [pairA; pairOther].
Proof.
  split.
  - apply (AddPair_skips_duplicates (AddPair NewSimulation pairA) pairB).
    exists pairA. split; by_evaluation.
  - apply (AddPair_skips_duplicates (AddPair NewSimulation pairA) pairOther).
    intros saved Hin. apply list_elem_of_singleton in Hin. subst saved.
    by_evaluation.
Defined.



End AddPair_examples.

(** ** [GetResponse] *)

Section GetResponse_facts.

Import models hoverfly.
Context {Cache Sim : Type}.
Variable CacheMatcher_GetResponse : Cache -> RequestDetails -> orError ResponseDetails.
Variable CacheMatcher_SaveRequestResponsePair : Cache -> RequestResponsePair -> Cache.
Variable TemplateMatcher_Match : RequestDetails -> bool -> Sim -> orError ResponseDetails.

(** C1. When the cache lookup misses and the matcher finds no pair,
    [GetResponse] returns no response but a matching error with status code
    412 and the description [Could not find recorded request, please record
    it first!]; the cache is left as it was. *)
Theorem GetResponse_miss_without_match cache webserver simulation requestDetails
    cacheErr err :
  CacheMatcher_GetResponse cache requestDetails = Error cacheErr ->
  TemplateMatcher_Match requestDetails webserver simulation = Error err ->
  GetResponse CacheMatcher_GetResponse CacheMatcher_SaveRequestResponsePair
    TemplateMatcher_Match cache webserver simulation requestDetails =
    (cache,
     NotMatched
       {| errStatusCode := 412;
          Description := "Could not find recorded request, please record it first!" |}).
Proof.
  intros Hcache Hmatch. unfold GetResponse.
  now rewrite Hcache, Hmatch.
Qed.

(** A hit in the cache is returned as it is stored, and so is a match, which
    is saved in the cache on the way. *)
Lemma GetResponse_hit cache webserver simulation requestDetails cachedResponse :
  CacheMatcher_GetResponse cache requestDetails = Value cachedResponse ->
  GetResponse CacheMatcher_GetResponse CacheMatcher_SaveRequestResponsePair
    TemplateMatcher_Match cache webserver simulation requestDetails =
    (cache, Matched cachedResponse).
Proof. intros Hcache. unfold GetResponse. now rewrite Hcache. Qed.

End GetResponse_facts.

Section GetResponse_examples.

Import models hoverfly examples.

(** The miss of scenario 2, on an empty cache and an empty template store. *)
Lemma GetResponse_miss_without_match_witness :
  GetResponse cacheGetResponse cacheSave templateMatch [] false [] requestB =
    ([],
     NotMatched
       {| errStatusCode := 412;
          Description := "Could not find recorded request, please record it first!" |}).
Proof.
  apply (GetResponse_miss_without_match cacheGetResponse cacheSave templateMatch
           [] false [] requestB "Could not find recorded request in cache"
           "No match found"); reflexivity.
Defined.

(** C1 as stated fails: on that miss the status code is not 502 and the text
    does not contain [Could not find a match]. *)
Lemma GetResponse_miss_is_not_502 :
  let result :=
    snd (GetResponse cacheGetResponse cacheSave templateMatch [] false [] requestB) in
  cacheGetResponse [] requestB = Error "Could not find recorded request in cache" /\
  templateMatch requestB false [] = Error "No match found" /\
  resultStatus result <> 502 /\
  strings.Contains (resultText result) "Could not find a match" = false.
Proof.
  cbv zeta. split; [reflexivity|]. split; [reflexivity|]. split.
  - intros Hstatus. vm_compute in Hstatus. discriminate Hstatus.
  - vm_compute. reflexivity.
Defined.

End GetResponse_examples.

(** ** [GetDefaultHoverflyHTTPClient] *)

Section HTTPClient_facts.

Import hoverfly.
Context {URLType : Type}.
Variable url_Parse : string -> orError URLType.

(** Whatever the flag and the proxy, the client does not follow redirects,
    and it skips certificate verification exactly when the flag is set. *)
Lemma GetDefaultHoverflyHTTPClient_client tlsVerification upstreamProxy c :
  GetDefaultHoverflyHTTPClient url_Parse tlsVerification upstreamProxy = Value c ->
  http.verifiesCertificates c = negb tlsVerification /\
  forall req via, http.CheckRedirect c req via = http.ErrUseLastResponse.
Proof.
  unfold GetDefaultHoverflyHTTPClient.
  destruct (String.eqb upstreamProxy EmptyString); [|destruct (url_Parse upstreamProxy)];
    intros [= <-]; split; reflexivity.
Qed.

(** C5. With TLS verification enabled and no upstream proxy, the client
    that [GetDefaultHoverflyHTTPClient] builds has [InsecureSkipVerify] set:
    it does not verify upstream certificates. With verification disabled it
    does verify them. In both cases [CheckRedirect] returns
    [ErrUseLastResponse]. *)
Theorem GetDefaultHoverflyHTTPClient_inverts_tls_flag :
  (exists c,
     GetDefaultHoverflyHTTPClient url_Parse true EmptyString = Value c /\
     http.InsecureSkipVerify (http.TLSClientConfig (http.clientTransport c)) = true /\
     http.verifiesCertificates c = false /\
     forall req via, http.CheckRedirect c req via = http.ErrUseLastResponse) /\
  (exists c,
     GetDefaultHoverflyHTTPClient url_Parse false EmptyString = Value c /\
     http.verifiesCertificates c = true /\
     forall req via, http.CheckRedirect c req via = http.ErrUseLastResponse).
Proof.
  split; eexists; (split; [reflexivity|]); repeat split; reflexivity.
Qed.

End HTTPClient_facts.

(** ** [DoRequest] and [processRequest] *)

Section DoRequest_facts.

Import hoverfly.
Variable Do : http.Request -> orError http.Response.

(** The request as [DoRequest] passes it on: [RequestURI] is cleared. *)
Lemma DoRequest_request request :
  fst (DoRequest Do request) =
    {| http.Method := http.Method request; http.URL := http.URL request;
       http.Host := http.Host request; http.RequestURI := EmptyString;
       http.reqHeader := http.reqHeader request; http.reqBody := http.reqBody request |}.
Proof. unfold DoRequest. now destruct (Do _). Qed.


Lemma DoRequest_error request err :
  Do (fst (DoRequest Do request)) = Error err ->
  snd (DoRequest Do request) = Error err.
Proof.
  rewrite DoRequest_request. intros Hdo. unfold DoRequest. now rewrite Hdo.
Qed.

End DoRequest_facts.

Section processRequest_facts.

Import models hoverfly.
Context {World : Type}.
Variable GetDelay : RequestDetails -> option ResponseDelay.
Variable NewRequestDetailsFromHttpRequest : http.Request -> orError RequestDetails.
Variable ErrorResponse : http.Request -> string -> string -> http.Response.
Implicit Types (modeMap : gmap string (Mode World)) (w : World).


(** In capture mode no delay is executed, whatever the request. *)
Lemma processRequest_capture_no_delay modeMap w req w' response delays :
  processRequest GetDelay NewRequestDetailsFromHttpRequest ErrorResponse
    Capture modeMap w req = Returns (w', response, delays) ->
  delays = [].
Proof.
  unfold processRequest.
  destruct (NewRequestDetailsFromHttpRequest req) as [requestDetails|err'];
    [|now intros [= _ _ <-]].
  destruct (modeMap !! Capture) as [m|]; [|discriminate].
  destruct (Process m w req requestDetails) as [[w'' response'] err].
  rewrite String.eqb_refl, orb_true_r. now intros [= _ _ <-].
Qed.

Lemma processRequest_capture modeMap w req requestDetails m w' response err :
  NewRequestDetailsFromHttpRequest req = Value requestDetails ->
  modeMap !! Capture = Some m ->
  Process m w req requestDetails = (w', response, err) ->
  processRequest GetDelay NewRequestDetailsFromHttpRequest ErrorResponse
    Capture modeMap w req = Returns (w', response, []).
Proof.
  intros Hdetails Hmode Hprocess. unfold processRequest.
  rewrite Hdetails, Hmode, Hprocess, String.eqb_refl, orb_true_r. reflexivity.
Qed.

Lemma processRequest_delayed mode modeMap w req requestDetails m w' response :
  mode <> Capture ->
  NewRequestDetailsFromHttpRequest req = Value requestDetails ->
  modeMap !! mode = Some m ->
  Process m w req requestDetails = (w', response, None) ->
  processRequest GetDelay NewRequestDetailsFromHttpRequest ErrorResponse
    mode modeMap w req =
    Returns (w', response,
             match GetDelay requestDetails with
             | Some respDelay => [respDelay]
             | None => []
             end).
Proof.
  intros Hmode' Hdetails Hmode Hprocess. unfold processRequest.
  rewrite Hdetails, Hmode, Hprocess.
  rewrite bool_decide_eq_false_2 by (intros H; now apply H).
  destruct (String.eqb_spec mode Capture) as [?|_]; [contradiction|]. cbn.
  now destruct (GetDelay requestDetails).
Qed.

Lemma processRequest_failed mode modeMap w req requestDetails m w' response err :
  NewRequestDetailsFromHttpRequest req = Value requestDetails ->
  modeMap !! mode = Some m ->
  Process m w req requestDetails = (w', response, Some err) ->
  processRequest GetDelay NewRequestDetailsFromHttpRequest ErrorResponse
    mode modeMap w req = Returns (w', response, []).
Proof.
  intros Hdetails Hmode Hprocess. unfold processRequest.
  rewrite Hdetails, Hmode, Hprocess.
  rewrite bool_decide_eq_true_2 by discriminate. reflexivity.
Qed.

End processRequest_facts.

Section ResponseDelayList_facts.

Import models.
Variable regexMatch : string -> string -> bool.

(** [GetDelay] selects the first rule that matches, in insertion order. *)
Lemma GetDelay_first rules req (i : nat) rule :
  rules !! i = Some rule ->
  delayMatches regexMatch req rule = true ->
  (forall (j : nat) r, (j < i)%nat -> rules !! j = Some r ->
     delayMatches regexMatch req r = false) ->
  ResponseDelayList_GetDelay regexMatch rules req = Some rule.
Proof.
  revert i. induction rules as [|r0 rules IH]; intros i Hi Hrule Hearlier; [discriminate|].
  destruct i as [|i]; cbn in *.
  - injection Hi as ->. now rewrite Hrule.
  - rewrite (Hearlier 0%nat r0) by (lia || reflexivity).
    apply (IH i); [assumption..|].
    intros j r Hj Hr. apply (Hearlier (S j)); [lia|exact Hr].
Qed.

Lemma GetDelay_none rules req :
  Forall (fun r => delayMatches regexMatch req r = false) rules ->
  ResponseDelayList_GetDelay regexMatch rules req = None.
Proof.
  induction 1 as [|r rules Hr _ IH]; cbn; [reflexivity|]. now rewrite Hr.
Qed.

End ResponseDelayList_facts.


(** C7. In capture mode [processRequest] executes no delay, whatever the
    request. When the request reaches the mode's [Process]: in capture mode
    [processRequest] returns the mode's response and executes no delay; in
    any other mode, when [Process] returned no error, it returns the mode's
    response after executing the first delay rule that matches the request,
    and no delay when no rule matches. *)
Theorem processRequest_delays_unless_capture
    {World : Type} (regexMatch : string -> string -> bool)
    (rules : list models.ResponseDelay)
    (NewRequestDetailsFromHttpRequest : http.Request -> orError models.RequestDetails)
    (ErrorResponse : http.Request -> string -> string -> http.Response)
    (modeMap : gmap string (hoverfly.Mode World)) w req :
  let run mode :=
    hoverfly.processRequest (models.ResponseDelayList_GetDelay regexMatch rules)
      NewRequestDetailsFromHttpRequest ErrorResponse mode modeMap w req in
  (forall w' response delays,
     run hoverfly.Capture = Returns (w', response, delays) -> delays = []) /\
  (forall mode requestDetails m w' response err,
     NewRequestDetailsFromHttpRequest req = Value requestDetails ->
     modeMap !! mode = Some m ->
     hoverfly.Process m w req requestDetails = (w', response, err) ->
     (mode = hoverfly.Capture -> run mode = Returns (w', response, [])) /\
     (mode <> hoverfly.Capture -> err = None ->
      (forall (i : nat) rule,
         rules !! i = Some rule ->
         models.delayMatches regexMatch requestDetails rule = true ->
         (forall (j : nat) r, (j < i)%nat -> rules !! j = Some r ->
            models.delayMatches regexMatch requestDetails r = false) ->
         run mode = Returns (w', response, [rule])) /\
      (Forall (fun r => models.delayMatches regexMatch requestDetails r = false) rules ->
       run mode = Returns (w', response, [])))).
Proof.
  intros run. split.
  - intros w' response delays. apply processRequest_capture_no_delay.
  - intros mode requestDetails m w' response err Hdetails Hmode Hprocess.
    subst run. cbv beta. split.
    + intros ->. now apply (processRequest_capture _ _ _ _ _ _ requestDetails m _ _ err).
    + intros Hmode' ->. split.
      * intros i rule Hi Hrule Hearlier.
        rewrite (processRequest_delayed _ _ _ _ _ _ _ requestDetails m w' response)
          by assumption.
        now rewrite (GetDelay_first regexMatch rules requestDetails i rule).
      * intros Hnone.
        rewrite (processRequest_delayed _ _ _ _ _ _ _ requestDetails m w' response)
          by assumption.
        now rewrite GetDelay_none.
Qed.

Section pipeline_examples.

Import models hoverfly examples.



(** The simulate test with three delay rules: the first rule does not match,
    the second one does and is the one executed; in capture mode none is. *)
Lemma processRequest_delays_unless_capture_witness :
  processRequest (ResponseDelayList_GetDelay literalMatch delayRules)
    (newRequestDetails [requestPath1]) errorResponse
    Simulate modeMap [recordedPath1] (httpRequestOf requestPath1) =
    Returns ([recordedPath1],
             {| http.StatusCode := 201; http.respHeader := {[ "Header" := ["value1"] ]};
                http.respBody := "body1" |},
             [ {| UrlPattern := "virtual.com"; HttpMethod := "GET"; Delay := 250 |} ]) /\
  exists response,
    processRequest (ResponseDelayList_GetDelay literalMatch delayRules)
      (newRequestDetails [requestPath1]) errorResponse
      Capture modeMap [recordedPath1] (httpRequestOf requestPath1) =
      Returns ([recordedPath1], response, []).
Proof.
  destruct (processRequest_delays_unless_capture literalMatch delayRules
              (newRequestDetails [requestPath1]) errorResponse modeMap
              [recordedPath1] (httpRequestOf requestPath1)) as [_ Hmode].
  split.
  - destruct (Hmode Simulate requestPath1 simulateStub [recordedPath1]
                {| http.StatusCode := 201; http.respHeader := {[ "Header" := ["value1"] ]};
                   http.respBody := "body1" |}
                None eq_refl eq_refl eq_refl) as [_ Hdelayed].
    destruct (Hdelayed ltac:(discriminate) eq_refl) as [Hfirst _].
    apply (Hfirst 1%nat _ eq_refl eq_refl).
    intros j r Hj Hr. destruct j as [|j]; [|lia].
    injection Hr as <-. reflexivity.
  - eexists.
    destruct (Hmode Capture requestPath1 captureStub [recordedPath1] _ None
                eq_refl eq_refl eq_refl) as [Hcapture _].
    apply Hcapture. reflexivity.
Defined.

End pipeline_examples.

(** ** The request template store *)

Section headerMatch_facts.

Import matching examples.



End headerMatch_facts.

(** ** [BoltAuth.Delete] *)

Section Delete_facts.

Import backends.

Lemma Delete_out_of_fuel fuel b key : Delete fuel b key = None.
Proof. induction fuel as [|fuel IH]; [reflexivity|exact IH]. Qed.

(** After [n] steps the machine is entering [Delete] once more, [n]
    activations wait on the stack and the store is as it was. *)
Lemma steps_Delete n b key m :
  steps n (initial b key) m ->
  m = mkMachine (Calling key) (replicate n (DeleteFrame key)) b.
Proof.
  intros Hsteps. remember (initial b key) as m0 eqn:Hm0.
  induction Hsteps as [m|n m m' m'' Hsteps IH Hstep]; subst; [reflexivity|].
  specialize (IH eq_refl). subst m'. inversion Hstep; subst. reflexivity.
Qed.

(** C10. A call of [BoltAuth.Delete] only ever calls itself. However much
    fuel the evaluation gets, no activation returns. On the machine, every
    state reached from the call is again the entry of [Delete], with one more
    activation waiting for each step taken and the store untouched; such a
    state has not returned to the caller and it can take another step. *)
Theorem Delete_never_returns b key :
  (forall fuel, Delete fuel b key = None) /\
  (forall n m, steps n (initial b key) m ->
     ctl m = Calling key /\
     length (stack m) = n /\
     store m = b /\
     ~ returned m /\
     exists m', step m m').
Proof.
  split; [intros fuel; apply Delete_out_of_fuel|].
  intros n m Hsteps. apply steps_Delete in Hsteps. subst m. cbn.
  repeat split.
  - apply length_replicate.
  - intros (err & Hctl & _). discriminate Hctl.
  - eexists. apply step_call.
Qed.

(** Three steps into a call of [Delete]. *)
Lemma Delete_never_returns_witness :
  let b := mkBoltAuth ∅ TokenBucketName UserBucketName in
  let m := mkMachine (Calling "token")
             [DeleteFrame "token"; DeleteFrame "token"; DeleteFrame "token"] b in
  steps 3 (initial b "token") m /\ store m = b /\ ~ returned m.
Proof.
  intros b m.
  assert (steps 3 (initial b "token") m) as Hsteps
    by (repeat (eapply steps_S; [|apply step_call]); apply steps_O).
  split; [exact Hsteps|].
  destruct (Delete_never_returns b "token") as [_ Hmachine].
  destruct (Hmachine 3%nat m Hsteps) as (_ & _ & Hstore & Hreturned & _).
  split; assumption.
Defined.

End Delete_facts.

(** ** [strings.Contains] *)

Section Contains_facts.

Import strings.

Lemma append_cons c (s t : string) : String c s +:+ t = String c (s +:+ t).
Proof. reflexivity. Qed.

Lemma append_assoc (a b c : string) : a +:+ (b +:+ c) = (a +:+ b) +:+ c.
Proof.
  induction a as [|x a IH]; [reflexivity|]. now rewrite !append_cons, IH.
Qed.

Lemma prefix_append (s t : string) : String.prefix s (s +:+ t) = true.
Proof.
  induction s as [|c s IH]; [now destruct t|].
  rewrite append_cons. cbn. destruct (ascii_dec c c); [exact IH|contradiction].
Qed.

Lemma Contains_prefix (s t : string) : Contains (s +:+ t) s = true.
Proof.
  destruct s as [|c s]; [now destruct t|].
  rewrite append_cons. cbn [Contains]. rewrite <- append_cons.
  now rewrite prefix_append.
Qed.

Lemma Contains_append (before s after : string) :
  Contains (before +:+ s +:+ after) s = true.
Proof.
  induction before as [|c before IH].
  - change (EmptyString +:+ s +:+ after) with (s +:+ after). apply Contains_prefix.
  - rewrite append_cons. cbn [Contains]. rewrite IH. apply orb_true_r.
Qed.

End Contains_facts.

(** ** Schema negotiation *)

Section schema_facts.

Import v2.
Context {Data : Type}.
Implicit Types body : ImportBody Data.

(** C4. An import payload without a [meta] object is rejected with the
    message [Invalid JSON, missing "meta" object]. A payload with [meta] but
    without [meta.schemaVersion] is rejected with [Invalid JSON, missing
    "meta.schemaVersion" string]. A payload whose [meta.schemaVersion] holds an
    unsupported value X is rejected with a message that contains [schema
    version X is not supported by this version]. *)
Theorem schema_negotiation body :
  (meta body = None ->
   NewSimulationViewFromResponseBody body =
     Rejected ("Invalid JSON, missing " +:+ dquote +:+ "meta" +:+ dquote +:+ " object")) /\
  (forall m, meta body = Some m -> SchemaVersion m = None ->
   NewSimulationViewFromResponseBody body = Rejected missingSchemaVersion) /\
  (forall m X, meta body = Some m -> SchemaVersion m = Some X ->
   X ∉ supportedSchemaVersions ->
   exists message,
     NewSimulationViewFromResponseBody body = Rejected message /\
     strings.Contains message
       ("schema version " +:+ X +:+ " is not supported by this version") = true).
Proof.
  unfold NewSimulationViewFromResponseBody. repeat split.
  - now intros ->.
  - now intros m -> ->.
  - intros m X -> -> HX. rewrite bool_decide_eq_false_2 by exact HX.
    eexists. split; [reflexivity|].
    change ("Invalid simulation: schema version " +:+ X +:+
            " is not supported by this version of Hoverfly, you may need to update Hoverfly")
      with ("Invalid simulation: " +:+ ("schema version " +:+ X +:+
            (" is not supported by this version" +:+
             " of Hoverfly, you may need to update Hoverfly"))).
    rewrite (append_assoc X), (append_assoc "schema version "). apply Contains_append.
Qed.

End schema_facts.

Section schema_examples.

Import v2 examples.

(** The three payloads of the schema tests. *)
Lemma schema_negotiation_witness :
  NewSimulationViewFromResponseBody bodyWithoutMeta =
    Rejected ("Invalid JSON, missing " +:+ dquote +:+ "meta" +:+ dquote +:+ " object") /\
  NewSimulationViewFromResponseBody bodyWithoutSchemaVersion =
    Rejected missingSchemaVersion /\
  exists message,
    NewSimulationViewFromResponseBody (bodyWithSchemaVersion "r3") = Rejected message /\
    strings.Contains message "schema version r3 is not supported by this version" = true.
Proof.
  split; [|split].
  - apply (schema_negotiation bodyWithoutMeta). reflexivity.
  - destruct (schema_negotiation bodyWithoutSchemaVersion) as (_ & Hmissing & _).
    eapply Hmissing; reflexivity.
  - destruct (schema_negotiation (bodyWithSchemaVersion "r3")) as (_ & _ & Hunknown).
    apply (Hunknown _ "r3" eq_refl eq_refl).
    intros Hin. apply (bool_decide_pack _) in Hin. vm_compute in Hin. exact Hin.
Defined.

(** C4 as stated fails for a payload without [meta]: it is rejected, but not
    with the message about [meta.schemaVersion]. *)
Lemma missing_meta_has_its_own_message :
  meta bodyWithoutMeta = None /\
  NewSimulationViewFromResponseBody bodyWithoutMeta <> Rejected missingSchemaVersion /\
  NewSimulationViewFromResponseBody bodyWithoutMeta =
    Rejected ("Invalid JSON, missing " +:+ dquote +:+ "meta" +:+ dquote +:+ " object").
Proof.
  split; [reflexivity|]. split; [|reflexivity].
  intros Heq. vm_compute in Heq. discriminate Heq.
Defined.

End schema_examples.

(** ** Remote middleware *)

Section middleware_facts.

Import models middleware.
Variable post : string -> string -> reply.
Variable encode : Payload -> string.
Variable decode : string -> orError Payload.

(** C9. When the exchange with the remote middleware fails, when it answers
    with a status other than 200, or when the body of its answer does not
    parse, [ExecuteMiddlewareRemotely] returns the payload it was given and
    an error. *)
Theorem ExecuteMiddlewareRemotely_failure url payload :
  (forall reason,
     post url (encode payload) = TransportFailure reason ->
     ExecuteMiddlewareRemotely post encode decode url payload = (payload, Some reason)) /\
  (forall status body,
     post url (encode payload) = HttpReply status body -> status <> 200 ->
     ExecuteMiddlewareRemotely post encode decode url payload =
       (payload, Some "Error when communicating with remote middleware")) /\
  (forall body reason,
     post url (encode payload) = HttpReply 200 body -> decode body = Error reason ->
     ExecuteMiddlewareRemotely post encode decode url payload = (payload, Some reason)).
Proof.
  unfold ExecuteMiddlewareRemotely. repeat split.
  - now intros reason ->.
  - intros status body -> Hstatus.
    destruct (Z.eqb_spec status 200); [contradiction|reflexivity].
  - now intros body reason -> ->.
Qed.

End middleware_facts.

Section middleware_examples.

Import models middleware examples.

(** The handlers of the middleware tests: one answers 404, one answers 200
    with an empty body, one cannot be reached. *)
Lemma ExecuteMiddlewareRemotely_failure_witness :
  ExecuteMiddlewareRemotely postNotOkay encodeBody decodeBody "http://localhost/process"
    testPayload = (testPayload, Some "Error when communicating with remote middleware") /\
  ExecuteMiddlewareRemotely postOkayButNoResponse encodeBody decodeBody
    "http://localhost/process" testPayload =
    (testPayload, Some "unexpected end of JSON input") /\
  ExecuteMiddlewareRemotely postUnreachable encodeBody decodeBody
    "http://localhost/process" testPayload = (testPayload, Some "connection refused").
Proof.
  split; [|split].
  - destruct (ExecuteMiddlewareRemotely_failure postNotOkay encodeBody decodeBody
                "http://localhost/process" testPayload) as (_ & Hstatus & _).
    apply (Hstatus 404 EmptyString); [reflexivity|discriminate].
  - destruct (ExecuteMiddlewareRemotely_failure postOkayButNoResponse encodeBody decodeBody
                "http://localhost/process" testPayload) as (_ & _ & Hparse).
    apply (Hparse EmptyString); reflexivity.
  - destruct (ExecuteMiddlewareRemotely_failure postUnreachable encodeBody decodeBody
                "http://localhost/process" testPayload) as (Htransport & _).
    apply Htransport. reflexivity.
Defined.

End middleware_examples.

(** ** More on the simulation store *)

Section Simulation_more.

Import models.
Context {Fields : Type} `{!EqDecision Fields}.
Implicit Types (this : Simulation Fields) (pair p q : RequestMatcherResponsePair Fields).
Implicit Types (m : RequestMatcher Fields) (l : seqLoop Fields).

(** X1. [AddPair] never drops, changes or reorders a saved pair: the saved
    pairs are a prefix of the result, which is at most one pair longer, and
    the delays stay. Adding the same pair a second time changes nothing. *)
Theorem AddPair_keeps_saved_pairs this pair :
  matchingPairs this `prefix_of` matchingPairs (AddPair this pair) /\
  (length (matchingPairs (AddPair this pair)) <= S (length (matchingPairs this)))%nat /\
  ResponseDelays (AddPair this pair) = ResponseDelays this /\
  AddPair (AddPair this pair) pair = AddPair this pair.
Proof.
  destruct (decide (pairRequestMatcher pair ∈ pairRequestMatcher <$> matchingPairs this))
    as [Hin|Hnin].
  - rewrite !AddPair_duplicate by assumption. repeat split; [reflexivity|lia].
  - rewrite (AddPair_fresh this) by assumption. cbn. repeat split.
    + now apply prefix_app_r.
    + rewrite length_app. cbn. lia.
    + apply AddPair_duplicate. cbn. rewrite fmap_app. apply elem_of_app. right.
      cbn. apply list_elem_of_singleton. reflexivity.
Qed.

(** The pairs after a run of [AddPair] calls: the saved ones, then every
    inserted pair that is the first with its request matcher. *)
Lemma AddPairs_elem_of this ps p :
  p ∈ matchingPairs (AddPairs this ps) <->
  p ∈ matchingPairs this \/
  ((pairRequestMatcher p ∉ pairRequestMatcher <$> matchingPairs this) /\
   exists i : nat, ps !! i = Some p /\
     forall (j : nat) q, (j < i)%nat -> ps !! j = Some q ->
       pairRequestMatcher q <> pairRequestMatcher p).
Proof.
  unfold AddPairs. revert this. induction ps as [|a ps IH]; intros this; cbn [fold_left].
  - split; [auto|]. intros [?|(_ & i & Hi & _)]; [assumption|]. now rewrite lookup_nil in Hi.
  - rewrite IH. clear IH.
    destruct (decide (pairRequestMatcher a ∈ pairRequestMatcher <$> matchingPairs this))
      as [Hin|Hnin].
    + rewrite AddPair_duplicate by assumption. split.
      * intros [?|(Hp & i & Hi & Hfirst)]; [now left|]. right. split; [assumption|].
        exists (S i). split; [assumption|].
        intros [|j] q Hj Hq; cbn in Hq.
        -- injection Hq as <-. congruence.
        -- apply (Hfirst j); [lia|assumption].
      * intros [?|(Hp & [|i] & Hi & Hfirst)]; [now left|..]; cbn in Hi.
        -- injection Hi as <-. contradiction.
        -- right. split; [assumption|]. exists i. split; [assumption|].
           intros j q Hj Hq. apply (Hfirst (S j)); [lia|assumption].
    + rewrite AddPair_fresh by assumption. cbn [matchingPairs].
      rewrite fmap_app. cbn [fmap list_fmap]. split.
      * intros [[?|Hpa]%elem_of_app|(Hp & i & Hi & Hfirst)]; [now left|..].
        -- apply list_elem_of_singleton in Hpa. subst p. right. split; [assumption|].
           exists 0%nat. split; [reflexivity|]. intros j q Hj. lia.
        -- right. rewrite not_elem_of_app, list_elem_of_singleton in Hp.
           destruct Hp as [Hp Hpa]. split; [assumption|].
           exists (S i). split; [assumption|].
           intros [|j] q Hj Hq; cbn in Hq.
           ++ injection Hq as <-. congruence.
           ++ apply (Hfirst j); [lia|assumption].
      * intros [?|(Hp & [|i] & Hi & Hfirst)]; [|cbn in Hi..].
        -- left. apply elem_of_app. now left.
        -- injection Hi as <-. left. apply elem_of_app. right.
           apply list_elem_of_singleton. reflexivity.
        -- right. split.
           ++ rewrite not_elem_of_app, list_elem_of_singleton. split; [assumption|].
              intros Heq. apply (Hfirst 0%nat a); [lia|reflexivity|congruence].
           ++ exists i. split; [assumption|].
              intros j q Hj Hq. apply (Hfirst (S j)); [lia|assumption].
Qed.

(** X2. After any run of [AddPair] calls on a new simulation, the pairs
    held are exactly the inserted pairs that were the first with their
    request matcher: of several pairs with one matcher the earliest wins and
    the responses of the later ones are dropped. *)
Theorem AddPairs_first_wins (ps : list (RequestMatcherResponsePair Fields)) p :
  p ∈ matchingPairs (AddPairs NewSimulation ps) <->
  exists i : nat, ps !! i = Some p /\
    forall (j : nat) q, (j < i)%nat -> ps !! j = Some q ->
      pairRequestMatcher q <> pairRequestMatcher p.
Proof.
  rewrite AddPairs_elem_of. cbn. split.
  - intros [Hin|[_ ?]]; [|assumption]. now apply elem_of_nil in Hin.
  - intros ?. right. split; [apply not_elem_of_nil|assumption].
Qed.


(** What [AddPairInSequence] never touches in a pair: the field matchers
    and the status, body and headers of the response. *)
Local Abbreviation core := (fun q : RequestMatcherResponsePair Fields =>
  (Matchers (pairRequestMatcher q), Status (Response q), Body (Response q),
   Headers (Response q))).

Lemma AddPairInSequence_body_core l q :
  let l' := AddPairInSequence_body l q in
  core <$> updated l' = ((core <$> updated l) ++ [core q])%list /\
  Matchers (pairRequestMatcher (loopPair l')) = Matchers (pairRequestMatcher (loopPair l)) /\
  Response (loopPair l') = Response (loopPair l) /\
  (loopState l' = loopState l \/ loopState l' = <["sequence" := "1"]> (loopState l)).
Proof.
  unfold AddPairInSequence_body. destruct (DeepEqual _ _).
  - destruct (String.eqb _ _); cbn; rewrite fmap_app; auto.
  - cbn. rewrite fmap_app. auto.
Qed.

Lemma AddPairInSequence_fold_core saved l :
  let l' := fold_left AddPairInSequence_body saved l in
  core <$> updated l' = ((core <$> updated l) ++ (core <$> saved))%list /\
  Matchers (pairRequestMatcher (loopPair l')) = Matchers (pairRequestMatcher (loopPair l)) /\
  Response (loopPair l') = Response (loopPair l) /\
  (loopState l' = loopState l \/ loopState l' = <["sequence" := "1"]> (loopState l)).
Proof.
  revert l. induction saved as [|q saved IH]; intros l; cbn.
  - rewrite app_nil_r. auto.
  - destruct (IH (AddPairInSequence_body l q)) as (Hu & Hm & Hr & Hs).
    destruct (AddPairInSequence_body_core l q) as (Hu' & Hm' & Hr' & Hs').
    cbv zeta in *. rewrite Hu, Hu', Hm, Hm', Hr, Hr', <- app_assoc.
    repeat split. destruct Hs as [->| ->], Hs' as [->| ->]; auto.
    right. apply insert_insert_eq.
Qed.


(** X4. The state map after [AddPairInSequence] is the one before, or the
    one before with [sequence] set to [1]: no other key is written and no
    other value is stored. *)
Theorem AddPairInSequence_state this pair (st : gmap string string) :
  snd (AddPairInSequence this pair st) = st \/
  snd (AddPairInSequence this pair st) = <["sequence" := "1"]> st.
Proof.
  unfold AddPairInSequence. cbn [snd].
  set (l0 := {| loopPair := pair; loopState := st; counter := 0; updated := [] |}).
  now destruct (AddPairInSequence_fold_core (matchingPairs this) l0) as (_ & _ & _ & Hs).
Qed.

(** X5. When no saved pair has the field matchers of the new pair,
    [AddPairInSequence] does what [AddPair] does: the pair is appended as it
    is, no saved pair changes and the state map stays. *)
Theorem AddPairInSequence_fresh this pair (st : gmap string string) :
  Forall (fun q => Matchers (pairRequestMatcher q) <> Matchers (pairRequestMatcher pair))
    (matchingPairs this) ->
  AddPairInSequence this pair st = (AddPair this pair, st).
Proof.
  intros Hothers. unfold AddPairInSequence.
  rewrite (fold_other (matchingPairs this)) by exact Hothers. cbn.
  rewrite AddPair_fresh; [reflexivity|].
  intros (q & Heq & Hin)%list_elem_of_fmap.
  rewrite Forall_forall in Hothers. apply (Hothers q Hin). now rewrite Heq.
Qed.

Lemma AddPairs_pairs_only this this' ps :
  matchingPairs this = matchingPairs this' ->
  matchingPairs (AddPairs this ps) = matchingPairs (AddPairs this' ps).
Proof.
  unfold AddPairs. revert this this'.
  induction ps as [|a ps IH]; intros this this' Heq; cbn; [assumption|].
  apply IH. unfold AddPair. rewrite Heq. now destruct (negb _); cbn; rewrite ?Heq.
Qed.

Lemma AddPairs_delays this ps : ResponseDelays (AddPairs this ps) = ResponseDelays this.
Proof.
  unfold AddPairs. revert this. induction ps as [|a ps IH]; intros this; cbn; [reflexivity|].
  rewrite IH. unfold AddPair. now destruct (negb _).
Qed.

(** X6. After [DeleteMatchingPairs] the simulation takes pairs like a new
    one: whatever it held before, a run of [AddPair] calls gives the pairs it
    gives on [NewSimulation], so a pair that was skipped as a duplicate
    before is stored afterwards. The delays survive the deletion. *)
Theorem DeleteMatchingPairs_forgets_pairs this ps :
  GetMatchingPairs (DeleteMatchingPairs this) = [] /\
  matchingPairs (AddPairs (DeleteMatchingPairs this) ps) =
    matchingPairs (AddPairs NewSimulation ps) /\
  ResponseDelays (AddPairs (DeleteMatchingPairs this) ps) = ResponseDelays this.
Proof.
  split; [reflexivity|]. split.
  - now apply AddPairs_pairs_only.
  - now rewrite AddPairs_delays.
Qed.

End Simulation_more.

Section Simulation_more_examples.

Import models examples.

(** [pairOther] has another destination than the saved [pairA]. *)
Lemma AddPairInSequence_fresh_witness :
  AddPairInSequence (AddPair NewSimulation pairA) pairOther ∅ =
    (AddPair (AddPair NewSimulation pairA) pairOther, ∅).
Proof.
  apply (AddPairInSequence_fresh (AddPair NewSimulation pairA) pairOther ∅).
  by_evaluation.
Defined.

End Simulation_more_examples.

(** ** More on the request template store *)

Section headerMatch_more.

Import matching.
Implicit Types (tmplHeaders reqHeaders : gmap string (list string)).
Implicit Types (entries : list (string * list string)).

(** A template header is met by the request when the request has the name,
    in the same spelling, and the first values agree. *)
Local Abbreviation met reqHeaders := (fun entry : string * list string =>
  exists value others others',
    entry.2 = value :: others /\ reqHeaders !! entry.1 = Some (value :: others')).

(** A template header on which the loop cannot panic: the template lists a
    value for it and the request does not have it with no value. *)
Local Abbreviation safe reqHeaders := (fun entry : string * list string =>
  entry.2 <> [] /\ reqHeaders !! entry.1 <> Some []).

Lemma headerMatch_range_true entries reqHeaders :
  headerMatch_range entries reqHeaders = Returns true <->
  Forall (met reqHeaders) entries.
Proof.
  induction entries as [|[name vals] entries IH]; cbn.
  - split; [constructor|reflexivity].
  - rewrite Forall_cons, <- IH. cbn.
    destruct (reqHeaders !! name) as [[|first rest]|] eqn:Hreq;
      [destruct vals| destruct vals as [|value others] |].
    + split; [discriminate|]. intros [(? & ? & ? & ? & ?) _]. discriminate.
    + split; [discriminate|]. intros [(? & ? & ? & ? & ?) _]. discriminate.
    + split; [discriminate|]. intros [(? & ? & ? & ? & ?) _]. discriminate.
    + destruct (String.eqb_spec value first) as [->|Hne].
      * split; [intros ?; split; eauto|tauto].
      * split; [discriminate|]. intros [(v & o & o' & Hv & Hr) _]. cbn in *.
        congruence.
    + split; [discriminate|]. intros [(? & ? & ? & ? & ?) _]. discriminate.
Qed.

Lemma headerMatch_range_safe entries reqHeaders :
  Forall (safe reqHeaders) entries ->
  exists b, headerMatch_range entries reqHeaders = Returns b.
Proof.
  induction 1 as [|[name vals] entries [Hvals Hreq] _ [b IH]]; cbn in *; [eauto|].
  destruct (reqHeaders !! name) as [[|first rest]|]; [congruence| |eauto].
  destruct vals as [|value others]; [congruence|].
  destruct (String.eqb value first); eauto.
Qed.


(** X7. [headerMatch] returns [true] exactly when every header of the
    template is in the request under the same name with the same first
    value. Only the first value of a header is compared, and headers of the
    request that the template does not name are ignored: a request that has
    all the headers of a matching request, as they are, matches too. *)
Theorem headerMatch_true tmplHeaders reqHeaders :
  (headerMatch tmplHeaders reqHeaders = Returns true <->
   forall name values, tmplHeaders !! name = Some values ->
     exists value others others',
       values = value :: others /\ reqHeaders !! name = Some (value :: others')) /\
  (forall reqHeaders',
     reqHeaders ⊆ reqHeaders' ->
     headerMatch tmplHeaders reqHeaders = Returns true ->
     headerMatch tmplHeaders reqHeaders' = Returns true).
Proof.
  assert (forall req, headerMatch tmplHeaders req = Returns true <->
    forall name values, tmplHeaders !! name = Some values ->
      exists value others others',
        values = value :: others /\ req !! name = Some (value :: others')) as Hiff.
  { intros req. unfold headerMatch. rewrite headerMatch_range_true, Forall_forall. split.
    - intros Hall name values Hname.
      apply (Hall (name, values)). now apply elem_of_map_to_list.
    - intros Hall [name values] Hin. apply elem_of_map_to_list in Hin.
      apply (Hall name values Hin). }
  split; [apply Hiff|].
  intros reqHeaders' Hsub. rewrite !Hiff. intros Hall name values Hname.
  destruct (Hall name values Hname) as (value & others & others' & -> & Hreq).
  exists value, others, others'. split; [reflexivity|].
  exact (lookup_weaken _ _ _ _ Hreq Hsub).
Qed.

(** X8. Go visits the headers of the template in an order of its own
    choice. Whether [headerMatch] returns [true] does not depend on that
    order; and when every template header has a value and the request has no
    header without values, the whole result is the same for every order. *)
Theorem headerMatch_any_order tmplHeaders reqHeaders entries :
  entries ≡ₚ map_to_list tmplHeaders ->
  (headerMatch_range entries reqHeaders = Returns true <->
   headerMatch tmplHeaders reqHeaders = Returns true) /\
  ((forall name values, tmplHeaders !! name = Some values ->
      values <> [] /\ reqHeaders !! name <> Some []) ->
   headerMatch_range entries reqHeaders = headerMatch tmplHeaders reqHeaders).
Proof.
  intros Hperm. unfold headerMatch.
  assert (headerMatch_range entries reqHeaders = Returns true <->
          headerMatch_range (map_to_list tmplHeaders) reqHeaders = Returns true) as Htrue
    by (rewrite !headerMatch_range_true; now rewrite Hperm).
  split; [exact Htrue|].
  intros Hsafe.
  assert (Forall (safe reqHeaders) (map_to_list tmplHeaders)) as Hall.
  { apply Forall_forall. intros [name values] Hin. apply elem_of_map_to_list in Hin.
    exact (Hsafe name values Hin). }
  destruct (headerMatch_range_safe _ _ Hall) as [b Hb].
  rewrite <- Hperm in Hall.
  destruct (headerMatch_range_safe _ _ Hall) as [b' Hb'].
  rewrite Hb, Hb' in *. f_equal.
  destruct b, b'; try reflexivity; exfalso.
  - destruct Htrue as [_ Htrue]. specialize (Htrue eq_refl). discriminate Htrue.
  - destruct Htrue as [Htrue _]. specialize (Htrue eq_refl). discriminate Htrue.
Qed.

Lemma GetPayload_Value store reqHeader payload :
  GetPayload store reqHeader = Returns (Value payload) <->
  exists (i : nat) entry,
    store !! i = Some entry /\
    headerMatch (Headers (requestTemplate entry)) reqHeader = Returns true /\
    (forall (j : nat) earlier, (j < i)%nat -> store !! j = Some earlier ->
       headerMatch (Headers (requestTemplate earlier)) reqHeader = Returns false) /\
    payload = {| models.payloadResponse := Response entry;
                 models.payloadRequest := models.emptyRequestDetails |}.
Proof.
  induction store as [|entry store IH]; cbn.
  - split; [discriminate|]. intros (i & e & Hi & _). destruct i; discriminate Hi.
  - destruct (headerMatch (Headers (requestTemplate entry)) reqHeader) as [[|]|reason] eqn:Hm.
    + split.
      * intros [= <-]. exists 0%nat, entry. repeat split; [assumption|]. intros j e Hj. lia.
      * intros ([|i] & e & Hi & He & Hearlier & ->); cbn in Hi.
        -- now injection Hi as <-.
        -- specialize (Hearlier 0%nat entry ltac:(lia) eq_refl). congruence.
    + rewrite IH. split.
      * intros (i & e & Hi & He & Hearlier & ->). exists (S i), e. repeat split; try assumption.
        intros [|j] e' Hj He'; cbn in He'; [now injection He' as <-|].
        apply (Hearlier j); [lia|assumption].
      * intros ([|i] & e & Hi & He & Hearlier & ->); cbn in Hi.
        -- injection Hi as <-. congruence.
        -- exists i, e. repeat split; try assumption.
           intros j e' Hj He'. apply (Hearlier (S j)); [lia|assumption].
    + split; [discriminate|].
      intros ([|i] & e & Hi & He & Hearlier & ->); cbn in Hi.
      * injection Hi as <-. congruence.
      * specialize (Hearlier 0%nat entry ltac:(lia) eq_refl). congruence.
Qed.

Lemma GetPayload_Error store reqHeader err :
  GetPayload store reqHeader = Returns (Error err) <->
  err = "No match found" /\
  Forall (fun entry =>
            headerMatch (Headers (requestTemplate entry)) reqHeader = Returns false) store.
Proof.
  induction store as [|entry store IH]; cbn.
  - split; [now intros [= <-]|]. now intros [-> _].
  - destruct (headerMatch (Headers (requestTemplate entry)) reqHeader) as [[|]|reason] eqn:Hm.
    + split; [discriminate|]. intros [_ Hall]. inversion Hall; congruence.
    + rewrite IH, Forall_cons. tauto.
    + split; [discriminate|]. intros [_ Hall]. inversion Hall; congruence.
Qed.

(** X9. [GetPayload] answers with the response of the first template, in
    the order of the store, whose headers match the request; the templates
    after it are not consulted, and the payload it returns carries no
    request. It returns an error, always [No match found], exactly when every
    template of the store fails to match; on an empty store it always does. *)
Theorem GetPayload_first_match store reqHeader :
  (forall payload,
     GetPayload store reqHeader = Returns (Value payload) <->
     exists (i : nat) entry,
       store !! i = Some entry /\
       headerMatch (Headers (requestTemplate entry)) reqHeader = Returns true /\
       (forall (j : nat) earlier, (j < i)%nat -> store !! j = Some earlier ->
          headerMatch (Headers (requestTemplate earlier)) reqHeader = Returns false) /\
       payload = {| models.payloadResponse := Response entry;
                    models.payloadRequest := models.emptyRequestDetails |}) /\
  (forall err,
     GetPayload store reqHeader = Returns (Error err) <->
     err = "No match found" /\
     Forall (fun entry =>
               headerMatch (Headers (requestTemplate entry)) reqHeader = Returns false)
       store) /\
  GetPayload [] reqHeader = Returns (Error "No match found").
Proof.
  split; [intros payload; apply GetPayload_Value|].
  split; [intros err; apply GetPayload_Error|reflexivity].
Qed.

End headerMatch_more.

Section headerMatch_more_examples.

Import matching examples.

(** A request with a further header and a further value still matches the
    template that asks for [Content-Type]. *)
Lemma headerMatch_true_witness :
  headerMatch (Headers (requestTemplate jsonTemplate))
    {[ "Content-Type" := ["application/json"; "charset=utf-8"]; "Accept" := ["*/*"] ]} =
    Returns true.
Proof.
  destruct (headerMatch_true (Headers (requestTemplate jsonTemplate))
              {[ "Content-Type" := ["application/json"; "charset=utf-8"];
                 "Accept" := ["*/*"] ]}) as [[_ Hmet] _].
  apply Hmet. intros name values Hname. cbn in Hname.
  apply lookup_singleton_Some in Hname as [<- <-].
  exists "application/json", [], ["charset=utf-8"]. split; reflexivity.
Defined.

(** A template with two headers, visited in either order. *)
Lemma headerMatch_any_order_witness :
  let tmplHeaders : gmap string (list string) :=
    {[ "Accept" := ["*/*"]; "Content-Type" := ["application/json"] ]} in
  headerMatch_range [("Content-Type", ["application/json"]); ("Accept", ["*/*"])]
    canonicalHeader = headerMatch tmplHeaders canonicalHeader /\
  headerMatch_range [("Accept", ["*/*"]); ("Content-Type", ["application/json"])]
    canonicalHeader = headerMatch tmplHeaders canonicalHeader.
Proof.
  intros tmplHeaders. split.
  - apply (headerMatch_any_order tmplHeaders canonicalHeader); [by_evaluation|].
    intros name values Hname. split.
    + intros ->. subst tmplHeaders.
      apply lookup_insert_Some in Hname as [[_ Hname]|[_ Hname]]; [discriminate|].
      apply lookup_singleton_Some in Hname as [_ Hname]. discriminate.
    + unfold canonicalHeader. intros Hreq.
      apply lookup_singleton_Some in Hreq as [_ Hreq]. discriminate Hreq.
  - apply (headerMatch_any_order tmplHeaders canonicalHeader); [by_evaluation|].
    intros name values Hname. split.
    + intros ->. subst tmplHeaders.
      apply lookup_insert_Some in Hname as [[_ Hname]|[_ Hname]]; [discriminate|].
      apply lookup_singleton_Some in Hname as [_ Hname]. discriminate.
    + unfold canonicalHeader. intros Hreq.
      apply lookup_singleton_Some in Hreq as [_ Hreq]. discriminate Hreq.
Defined.

(** The store with the one template, asked with the header it names. *)
Lemma GetPayload_first_match_witness :
  GetPayload [jsonTemplate] canonicalHeader =
    Returns (Value {| models.payloadResponse := Response jsonTemplate;
                      models.payloadRequest := models.emptyRequestDetails |}).
Proof.
  apply (GetPayload_first_match [jsonTemplate] canonicalHeader).
  exists 0%nat, jsonTemplate.
  split; [reflexivity|]. split; [vm_compute; reflexivity|].
  split; [intros j earlier Hj; lia|reflexivity].
Defined.

End headerMatch_more_examples.

(** ** More on the request pipeline *)

Section GetResponse_more.

Import models hoverfly.
Context {Cache Sim : Type}.
Variable CacheMatcher_GetResponse : Cache -> RequestDetails -> orError ResponseDetails.
Variable CacheMatcher_SaveRequestResponsePair : Cache -> RequestResponsePair -> Cache.
Variable TemplateMatcher_Match : RequestDetails -> bool -> Sim -> orError ResponseDetails.

(** X10. Let the cache answer a request with the response that was saved
    for it. Then a response that [GetResponse] has served once is served from
    the cache from then on: the same call again returns the same response
    and leaves the cache as the first call left it, whatever the matcher
    would say now. A miss without a match leaves the cache untouched. *)
Theorem GetResponse_serves_from_cache_afterwards cache webserver simulation requestDetails :
  (forall c req response,
     CacheMatcher_GetResponse
       (CacheMatcher_SaveRequestResponsePair c
          {| pairRequest := req; pairResponse := response |}) req = Value response) ->
  let first :=
    GetResponse CacheMatcher_GetResponse CacheMatcher_SaveRequestResponsePair
      TemplateMatcher_Match cache webserver simulation requestDetails in
  (forall response, snd first = Matched response ->
     forall (otherMatcher : RequestDetails -> bool -> Sim -> orError ResponseDetails)
            webserver' simulation',
       GetResponse CacheMatcher_GetResponse CacheMatcher_SaveRequestResponsePair
         otherMatcher (fst first) webserver' simulation' requestDetails =
       (fst first, Matched response)) /\
  (forall err, snd first = NotMatched err -> fst first = cache).
Proof.
  intros Hsaved first. subst first. unfold GetResponse.
  destruct (CacheMatcher_GetResponse cache requestDetails) as [cached|cacheErr] eqn:Hcache.
  - cbn. split; [|discriminate]. intros response [= <-] otherMatcher webserver' simulation'.
    now rewrite Hcache.
  - destruct (TemplateMatcher_Match requestDetails webserver simulation) as [matched|err'];
      cbn; split; try discriminate; try reflexivity.
    intros response [= <-] otherMatcher webserver' simulation'. now rewrite Hsaved.
Qed.

End GetResponse_more.

Section processRequest_more.

Import models hoverfly.
Context {World : Type}.
Variable GetDelay : RequestDetails -> option ResponseDelay.
Variable NewRequestDetailsFromHttpRequest : http.Request -> orError RequestDetails.
Variable ErrorResponse : http.Request -> string -> string -> http.Response.
Implicit Types (modeMap : gmap string (Mode World)) (w : World).

(** X11. [processRequest] executes at most one delay per request, and it
    executes one only if the request could be interpreted, the mode is not
    capture, the mode's [Process] returned no error, and the delay is the one
    [GetDelay] selects for the request. *)
Theorem processRequest_delay_only_if mode modeMap w req w' response delays :
  processRequest GetDelay NewRequestDetailsFromHttpRequest ErrorResponse
    mode modeMap w req = Returns (w', response, delays) ->
  delays = [] \/
  exists requestDetails m respDelay,
    NewRequestDetailsFromHttpRequest req = Value requestDetails /\
    modeMap !! mode = Some m /\
    mode <> Capture /\
    Process m w req requestDetails = (w', response, None) /\
    GetDelay requestDetails = Some respDelay /\
    delays = [respDelay].
Proof.
  unfold processRequest.
  destruct (NewRequestDetailsFromHttpRequest req) as [requestDetails|err] eqn:Hdetails;
    [|intros [= _ _ <-]; now left].
  destruct (modeMap !! mode) as [m|] eqn:Hmode; [|discriminate].
  destruct (Process m w req requestDetails) as [[w1 response1] err] eqn:Hprocess.
  destruct err as [err|]; [rewrite bool_decide_eq_true_2 by discriminate;
                           intros [= _ _ <-]; now left|].
  rewrite bool_decide_eq_false_2 by (intros H; now apply H). cbn [orb].
  destruct (String.eqb_spec mode Capture) as [->|Hne]; [intros [= _ _ <-]; now left|].
  destruct (GetDelay requestDetails) as [respDelay|] eqn:Hdelay;
    intros [= <- <- <-]; [right|now left].
  exists requestDetails, m, respDelay. repeat split; assumption.
Qed.

(** X12. A request that cannot be interpreted never reaches a mode: in
    every mode, also one that the mode map does not know, [processRequest]
    returns the error response for [Could not interpret HTTP request], leaves
    the world as it is and executes no delay. [processRequest] panics exactly
    when the request can be interpreted and the mode is not in the mode
    map. *)
Theorem processRequest_uninterpretable mode modeMap w req :
  (forall err, NewRequestDetailsFromHttpRequest req = Error err ->
     processRequest GetDelay NewRequestDetailsFromHttpRequest ErrorResponse
       mode modeMap w req =
     Returns (w, ErrorResponse req err "Could not interpret HTTP request", [])) /\
  ((exists reason,
      processRequest GetDelay NewRequestDetailsFromHttpRequest ErrorResponse
        mode modeMap w req = Panics reason) <->
   (exists requestDetails, NewRequestDetailsFromHttpRequest req = Value requestDetails) /\
   modeMap !! mode = None).
Proof.
  unfold processRequest. split.
  - now intros err ->.
  - destruct (NewRequestDetailsFromHttpRequest req) as [requestDetails|err].
    + destruct (modeMap !! mode) as [m|].
      * destruct (Process m w req requestDetails) as [[w1 response1] err].
        split; [|intros [_ ?]; discriminate].
        intros [reason Hpanic]. destruct (_ || _); [discriminate|].
        destruct (GetDelay requestDetails); discriminate.
      * split; eauto.
    + split; [intros [? ?]; discriminate|intros [[? ?] _]; discriminate].
Qed.

End processRequest_more.

Section HTTPClient_more.

Import hoverfly.
Context {URLType : Type}.
Variable url_Parse : string -> orError URLType.

(** X13. [GetDefaultHoverflyHTTPClient] ends the process exactly when an
    upstream proxy is given and does not parse. Otherwise the client sends
    every request through the parsed proxy, or through none when the setting
    is empty, and the TLS flag has no part in that. *)
Theorem GetDefaultHoverflyHTTPClient_proxy tlsVerification upstreamProxy :
  ((exists msg,
      GetDefaultHoverflyHTTPClient url_Parse tlsVerification upstreamProxy = Error msg) <->
   upstreamProxy <> EmptyString /\ exists err, url_Parse upstreamProxy = Error err) /\
  (forall c,
     GetDefaultHoverflyHTTPClient url_Parse tlsVerification upstreamProxy = Value c ->
     http.Proxy (http.clientTransport c) =
       if String.eqb upstreamProxy EmptyString then None
       else match url_Parse upstreamProxy with
            | Value u => Some u
            | Error _ => None
            end).
Proof.
  unfold GetDefaultHoverflyHTTPClient.
  destruct (String.eqb_spec upstreamProxy EmptyString) as [->|Hne].
  - split; [|now intros c [= <-]].
    split; [intros [? ?]; discriminate|intros [? _]; congruence].
  - destruct (url_Parse upstreamProxy) as [u|err].
    + split; [|now intros c [= <-]].
      split; [intros [? ?]; discriminate|intros [_ [? ?]]; discriminate].
    + split; [|discriminate]. split; eauto.
Qed.

End HTTPClient_more.

(** ** Splitting and joining strings *)

Section Split_facts.

Import strings.

Lemma append_empty_r (s : string) : s +:+ EmptyString = s.
Proof. induction s as [|c s IH]; [reflexivity|]. now rewrite append_cons, IH. Qed.

Lemma length_append (s t : string) :
  String.length (s +:+ t) = (String.length s + String.length t)%nat.
Proof. induction s as [|c s IH]; [reflexivity|]. rewrite append_cons. cbn. now rewrite IH. Qed.

Lemma substring_all (s : string) (n : nat) :
  (String.length s <= n)%nat -> String.substring 0 n s = s.
Proof.
  revert n. induction s as [|c s IH]; intros [|n] Hn; cbn in *; try reflexivity; try lia.
  rewrite IH; [reflexivity|lia].
Qed.

Lemma prefix_split (p s : string) (n : nat) :
  String.prefix p s = true -> (String.length s <= n)%nat ->
  s = p +:+ String.substring (String.length p) n s.
Proof.
  revert s. induction p as [|c p IH]; intros s Hp Hn.
  - change (EmptyString +:+ ?x) with x. cbn [String.length]. now rewrite substring_all.
  - destruct s as [|d s]; [discriminate|]. cbn in Hp.
    destruct (ascii_dec c d) as [->|]; [|discriminate].
    rewrite append_cons. cbn [String.length String.substring]. f_equal.
    apply IH; [exact Hp|]. cbn in Hn. lia.
Qed.

Lemma prefix_mono (p s t : string) :
  String.prefix p s = true -> String.prefix p (s +:+ t) = true.
Proof.
  revert s. induction p as [|c p IH]; intros s Hp; [now destruct (s +:+ t)|].
  destruct s as [|d s]; [discriminate|]. rewrite append_cons. cbn in *.
  destruct (ascii_dec c d); [now apply IH|discriminate].
Qed.

Lemma cut_eq (sep s : string) :
  cut sep s =
  if String.prefix sep s
  then Some (EmptyString, String.substring (String.length sep) (String.length s) s)
  else match s with
       | EmptyString => None
       | String c rest =>
           match cut sep rest with
           | Some (before, after) => Some (String c before, after)
           | None => None
           end
       end.
Proof. now destruct s. Qed.

(** [cut] finds an occurrence: the string is the text before, the separator
    and the text after. *)
Lemma cut_Some (sep s before after : string) :
  cut sep s = Some (before, after) -> s = before +:+ sep +:+ after.
Proof.
  revert before after. induction s as [|c s IH]; intros before after; rewrite cut_eq.
  - destruct (String.prefix sep EmptyString) eqn:Hp; [|discriminate].
    pose proof (prefix_split _ _ _ Hp (le_n _)) as Hs.
    intros [= <- <-]. exact Hs.
  - destruct (String.prefix sep (String c s)) eqn:Hp.
    + pose proof (prefix_split _ _ _ Hp (le_n _)) as Hs.
      intros [= <- <-]. exact Hs.
    + destruct (cut sep s) as [[b a]|] eqn:Hc; [|discriminate].
      intros [= <- <-]. rewrite append_cons. f_equal. now apply IH.
Qed.

(** [cut] finds nothing exactly when the separator does not occur. *)
Lemma cut_None (sep s : string) : cut sep s = None <-> Contains s sep = false.
Proof.
  induction s as [|c s IH]; rewrite cut_eq; cbn [Contains].
  - destruct (String.prefix sep EmptyString); cbn; split; congruence.
  - destruct (String.prefix sep (String c s)); cbn; [split; congruence|].
    rewrite <- IH. destruct (cut sep s) as [[b a]|]; split; congruence.
Qed.

(** The text before the occurrence that [cut] finds is shorter than the
    string, for a separator that is not empty. *)
Lemma cut_length (sep s before after : string) :
  sep <> EmptyString -> cut sep s = Some (before, after) ->
  (String.length after < String.length s)%nat.
Proof.
  intros Hsep Hcut. apply cut_Some in Hcut. subst s.
  rewrite !length_append. destruct sep; [contradiction|]. cbn. lia.
Qed.

Lemma genSplit_nonempty fuel s sep sepSave : genSplit fuel s sep sepSave <> [].
Proof. destruct fuel; cbn; [discriminate|]. now destruct (cut sep s) as [[? ?]|]. Qed.

Lemma Join_cons e rest sep :
  rest <> [] -> Join (e :: rest) sep = e +:+ sep +:+ Join rest sep.
Proof. now destruct rest. Qed.

(** Joining the pieces with the separator gives the string back. *)
Lemma Join_genSplit fuel s sep : Join (genSplit fuel s sep false) sep = s.
Proof.
  revert s. induction fuel as [|fuel IH]; intros s; cbn [genSplit]; [reflexivity|].
  destruct (cut sep s) as [[before after]|] eqn:Hcut; [|reflexivity].
  rewrite Join_cons by apply genSplit_nonempty. rewrite IH. symmetry. now apply cut_Some.
Qed.

(** The pieces that keep their separator, put together, are the string. *)
Lemma Join_genSplit_after fuel s sep : Join (genSplit fuel s sep true) EmptyString = s.
Proof.
  revert s. induction fuel as [|fuel IH]; intros s; cbn [genSplit]; [reflexivity|].
  destruct (cut sep s) as [[before after]|] eqn:Hcut; [|reflexivity].
  rewrite Join_cons by apply genSplit_nonempty. rewrite IH.
  change (EmptyString +:+ after) with after. rewrite <- append_assoc.
  symmetry. now apply cut_Some.
Qed.

(** The text before the occurrence of a character that [cut] finds does
    not hold the character. *)
Lemma cut_char_before c s before after :
  cut (String c EmptyString) s = Some (before, after) ->
  Contains before (String c EmptyString) = false.
Proof.
  revert before after. induction s as [|d s IH]; intros before after; rewrite cut_eq.
  - cbn. discriminate.
  - destruct (String.prefix (String c EmptyString) (String d s)) eqn:Hp.
    + intros [= <- <-]. reflexivity.
    + destruct (cut (String c EmptyString) s) as [[b a]|] eqn:Hc; [|discriminate].
      intros [= <- <-]. cbn [Contains]. rewrite (IH b a eq_refl), orb_false_r.
      cbn in Hp |- *. destruct (ascii_dec c d); [|reflexivity].
      destruct s; discriminate.
Qed.

Lemma cut_char_first c before after :
  Contains before (String c EmptyString) = false ->
  cut (String c EmptyString) (before +:+ String c after) = Some (before, after).
Proof.
  induction before as [|d before IH]; intros Hfree.
  - change (EmptyString +:+ ?x) with x. rewrite cut_eq. cbn [String.prefix].
    destruct (ascii_dec c c); [|contradiction].
    destruct after; cbn; [reflexivity|]. f_equal. f_equal. f_equal.
    apply substring_all. lia.
  - rewrite append_cons. rewrite cut_eq. cbn [Contains] in Hfree.
    apply orb_false_iff in Hfree as [Hp Hfree].
    assert (String.prefix (String c EmptyString) (String d (before +:+ String c after)) = false) as ->.
    { cbn in Hp |- *. destruct (ascii_dec c d); [|reflexivity]. destruct before; discriminate. }
    now rewrite IH.
Qed.

End Split_facts.

(** ** The [hoverctl] wrapper *)

Section wrapper_facts.

Import strings strconv wrapper.

(** X14. The URL that [BuildURL] makes is the host, a colon, the admin port
    and the endpoint, behind a scheme: none is added to a host that has one
    (http or https), and a host without one gets [http://] when it names
    [localhost] or [127.0.0.1] and [https://] otherwise. So the URL always
    starts with [http://] or [https://]. *)
Theorem BuildURL_scheme (target : Target) (endpoint : string) :
  let url := BuildURL target endpoint in
  let rest := Host target +:+ ":" +:+ Itoa (AdminPort target) +:+ endpoint in
  (HasPrefix url "http://" = true \/ HasPrefix url "https://" = true) /\
  url = (if HasPrefix (Host target) "http://" || HasPrefix (Host target) "https://"
         then EmptyString
         else if IsLocal (Host target) then "http://" else "https://") +:+ rest.
Proof.
  cbv zeta. unfold BuildURL, HasPrefix.
  destruct (String.prefix "http://" (Host target)) eqn:Hhttp; cbn [negb andb orb].
  - split; [left; now apply prefix_mono|reflexivity].
  - destruct (String.prefix "https://" (Host target)) eqn:Hhttps; cbn [negb andb orb].
    + split; [right; now apply prefix_mono|reflexivity].
    + destruct (IsLocal (Host target)); split; try reflexivity.
      * left. apply prefix_append.
      * right. apply prefix_append.
Qed.

Section doRequest_facts.

Variable http_NewRequest : string -> string -> string -> orError http.Request.
Variable Do : http.Request -> orError http.Response.

Lemma add_headers_only (kvs : list (string * string)) (request : http.Request) :
  differ_in_headers_only
    (fold_left (fun request kv =>
                  withHeader request (Header_Add (http.reqHeader request) kv.1 kv.2))
       kvs request) request.
Proof.
  revert request. induction kvs as [|kv kvs IH]; intros request; cbn [fold_left].
  - now repeat split.
  - destruct (IH (withHeader request (Header_Add (http.reqHeader request) kv.1 kv.2)))
      as (H1 & H2 & H3 & H4 & H5). repeat split; assumption.
Qed.

(** X15. [doRequest] never hands a 401 response to its caller, and its
    errors are two texts only. A response it returns is the answer to a
    request that [http.NewRequest] made for the URL of [BuildURL], changed in
    its headers only; with a token in the target, the last [Authorization]
    value of that request is [Bearer] and the token. *)
Theorem doRequest_outcome (target : Target) (method url body : string)
    (headers : option (gmap string string)) :
  match doRequest http_NewRequest Do target method url body headers with
  | Value response =>
      http.StatusCode response <> 401 /\
      exists made sent,
        http_NewRequest method (BuildURL target url) body = Value made /\
        Do sent = Value response /\
        differ_in_headers_only sent made /\
        (AuthToken target <> EmptyString ->
         exists values,
           http.reqHeader sent !! "Authorization" =
           Some (values ++ ["Bearer " +:+ AuthToken target])%list)
  | Error err =>
      err = "Could not connect to Hoverfly at " +:+ Host target +:+ ":" +:+
            Itoa (AdminPort target) \/
      err = "Hoverfly requires authentication" +:+ newline +:+ newline +:+
            "Run `hoverctl login -t " +:+ Name target +:+ "`"
  end.
Proof.
  unfold doRequest.
  destruct (http_NewRequest method (BuildURL target url) body) as [made|err] eqn:Hmade;
    [|now left].
  set (withHeaders := match headers with Some _ => _ | None => _ end).
  assert (differ_in_headers_only withHeaders made) as Hheaders.
  { subst withHeaders. destruct headers; [apply add_headers_only|now repeat split]. }
  set (sent := if negb _ then _ else _).
  assert (differ_in_headers_only sent made /\
          (AuthToken target <> EmptyString ->
           exists values,
             http.reqHeader sent !! "Authorization" =
             Some (values ++ ["Bearer " +:+ AuthToken target])%list)) as [Hsent Hauth].
  { subst sent. destruct (String.eqb_spec (AuthToken target) EmptyString) as [Heq|Hne];
      cbn [negb].
    - split; [exact Hheaders|contradiction].
    - split.
      + destruct Hheaders as (H1 & H2 & H3 & H4 & H5). repeat split; assumption.
      + intros _. eexists. cbn [withHeader http.reqHeader]. unfold Header_Add.
        change (http.CanonicalMIMEHeaderKey "Authorization") with "Authorization".
        apply lookup_insert_eq. }
  destruct (Do sent) as [response|err] eqn:Hdo; [|now left].
  destruct (Z.eqb_spec (http.StatusCode response) 401) as [Heq|Hne]; [now right|].
  split; [exact Hne|]. exists made, sent. repeat split; try assumption; apply Hsent.
Qed.

(** The pieces of a text split at a character hold no such character. *)
Lemma genSplit_char_free fuel c s :
  (String.length s <= fuel)%nat ->
  Forall (fun piece => Contains piece (String c EmptyString) = false)
    (genSplit fuel s (String c EmptyString) false).
Proof.
  revert s. induction fuel as [|fuel IH]; intros s Hfuel; cbn [genSplit].
  - constructor; [|constructor]. destruct s; [reflexivity|cbn in Hfuel; lia].
  - destruct (cut (String c EmptyString) s) as [[before after]|] eqn:Hcut.
    + constructor; [now apply cut_char_before in Hcut|]. apply IH.
      apply cut_length in Hcut; [lia|discriminate].
    + constructor; [now apply cut_None|constructor].
Qed.

(** X16. In a format other than [json], [GetLogs] returns the lines of the
    body of whatever response [doRequest] returns, also one that is not a
    200: no line holds a line feed, there is at least one line, and the lines
    joined by line feeds are the body. *)
Theorem GetLogs_text (target : Target) (format : string) (response : http.Response) :
  format <> "json" ->
  doRequest http_NewRequest Do target "GET" v2ApiLogs EmptyString
    (Some {[ "Content-Type" := "text/plain" ]}) = Value response ->
  exists lines,
    GetLogs http_NewRequest Do target format = Returns (Value lines) /\
    lines <> [] /\
    Forall (fun line => Contains line newline = false) lines /\
    Join lines newline = http.respBody response.
Proof.
  intros Hformat Hresponse. unfold GetLogs.
  destruct (String.eqb_spec format "json") as [|_]; [contradiction|].
  rewrite Hresponse. eexists. split; [reflexivity|]. unfold Split. split; [|split].
  - apply genSplit_nonempty.
  - now apply genSplit_char_free.
  - apply Join_genSplit.
Qed.

(** X17. In the format [json], [GetLogs] cuts nine bytes from the front and
    two from the end of the body of whatever response [doRequest] returns. A
    body of fewer than eleven bytes makes it panic. Otherwise the entries it
    returns, put together, are the body without those bytes; every entry but
    the last ends with [},], and the last holds no [},]. *)
Theorem GetLogs_json (target : Target) (response : http.Response) :
  doRequest http_NewRequest Do target "GET" v2ApiLogs EmptyString
    (Some {[ "Content-Type" := "application/json" ]}) = Value response ->
  let body := http.respBody response in
  if len body <? 11
  then GetLogs http_NewRequest Do target "json" = Panics "slice bounds out of range"
  else
    exists entries final,
      GetLogs http_NewRequest Do target "json" = Returns (Value (entries ++ [final])%list) /\
      Join (entries ++ [final])%list EmptyString =
        String.substring 9 (String.length body - 11) body /\
      Forall (fun entry => exists text, entry = text +:+ "},") entries /\
      Contains final "}," = false.
Proof.
  intros Hresponse body. unfold GetLogs.
  change (String.eqb "json" "json") with true. cbv zeta. cbv iota.
  rewrite insert_singleton_eq. rewrite Hresponse. fold body.
  destruct (Z.ltb_spec (len body) 11) as [Hshort|Hlong].
  - destruct (Z.ltb_spec (len body - 2) 9); [reflexivity|lia].
  - destruct (Z.ltb_spec (len body - 2) 9); [lia|].
    replace (String.length body - 2 - 9)%nat with (String.length body - 11)%nat by lia.
    unfold SplitAfter.
    set (trimmed := String.substring 9 (String.length body - 11) body).
    assert (forall fuel s,
              (String.length s <= fuel)%nat ->
              exists entries final,
                genSplit fuel s "}," true = (entries ++ [final])%list /\
                Forall (fun entry => exists text, entry = text +:+ "},") entries /\
                Contains final "}," = false) as Hsplit.
    { induction fuel as [|fuel IH]; intros s Hfuel; cbn [genSplit].
      - exists [], s. split; [reflexivity|]. split; [constructor|].
        destruct s; [reflexivity|cbn in Hfuel; lia].
      - destruct (cut "}," s) as [[before after]|] eqn:Hcut.
        + destruct (IH after) as (entries & final & -> & Hentries & Hfinal).
          { apply cut_length in Hcut; [lia|discriminate]. }
          exists ((before +:+ "},") :: entries), final. split; [reflexivity|].
          split; [constructor; eauto|exact Hfinal].
        + exists [], s. split; [reflexivity|]. split; [constructor|now apply cut_None]. }
    destruct (Hsplit (String.length trimmed) trimmed (le_n _))
      as (entries & final & Heq & Hentries & Hfinal).
    exists entries, final. rewrite Heq. split; [reflexivity|]. split; [|split; assumption].
    rewrite <- Heq. apply Join_genSplit_after.
Qed.

End doRequest_facts.

Section checkPorts_facts.

Variable Listen : string -> bool.

(** X18. [checkPorts] returns no error exactly when every port can be bound.
    Otherwise the error names the first port in the list that cannot, and the
    ports after it are not tried. *)
Theorem checkPorts_first_taken (ports : list Z) :
  (checkPorts Listen ports = None <->
   Forall (fun port => Listen (":" +:+ Itoa port) = true) ports) /\
  (forall err, checkPorts Listen ports = Some err ->
     exists free port rest,
       ports = (free ++ port :: rest)%list /\
       Forall (fun port => Listen (":" +:+ Itoa port) = true) free /\
       Listen (":" +:+ Itoa port) = false /\
       err = "Could not start Hoverfly" +:+ newline +:+ newline +:+ "Port " +:+
             Itoa port +:+ " was not free" /\
       checkPorts Listen (free ++ [port])%list = Some err).
Proof.
  induction ports as [|port ports [IHnone IHsome]]; cbn [checkPorts].
  - split; [split; [constructor|reflexivity]|discriminate].
  - destruct (Listen (":" +:+ Itoa port)) eqn:Hport.
    + split.
      * rewrite IHnone. split; [now constructor|now inversion 1].
      * intros err Herr.
        destruct (IHsome err Herr) as (free & taken & rest & -> & Hfree & Htaken & -> & Hcut).
        exists (port :: free), taken, rest. repeat split; try assumption.
        -- now constructor.
        -- cbn [app checkPorts]. now rewrite Hport.
    + split.
      * split; [discriminate|]. inversion 1; congruence.
      * intros err [= <-]. exists [], port, ports. repeat split; try assumption.
        -- constructor.
        -- cbn [app checkPorts]. now rewrite Hport.
Qed.

End checkPorts_facts.

End wrapper_facts.

(** ** The diff store command *)

Section diffStore_facts.

Import cmd.

Lemma fold_append_prefix {A : Type} (f : A -> string) (l : list A) (start : string) :
  fold_left (fun output x => output +:+ f x) l start =
  start +:+ fold_left (fun output x => output +:+ f x) l EmptyString.
Proof.
  revert start. induction l as [|x l IH]; intros start; cbn [fold_left].
  - now rewrite append_empty_r.
  - rewrite IH. rewrite (IH (EmptyString +:+ f x)).
    change (EmptyString +:+ f x) with (f x). now rewrite append_assoc.
Qed.

Lemma reportRequest_starts_with_newline output d :
  exists text, reportRequest output d = wrapper.newline +:+ "F" +:+ text.
Proof.
  unfold reportRequest. rewrite fold_append_prefix.
  rewrite <- !append_assoc. eexists. 
  change "For the request with the simple definition:" with
    ("F" +:+ "or the request with the simple definition:").
  rewrite <- !append_assoc. reflexivity.
Qed.

Lemma fold_reportRequest_last diffs d output :
  fold_left reportRequest (diffs ++ [d]) output = reportRequest EmptyString d.
Proof. now rewrite fold_left_app. Qed.

(** X19. [get-all] prints one text. For an empty diff store it is [There
    are no diffs stored in Hoverfly], and only then. Otherwise the text is
    the report for the last request in the list alone: the heading of each
    request is assigned to the output, not added to it, so the reports of
    the requests before the last are lost. *)
Theorem getAllDiffStore_reports_last_request_only
    (diffs : list ResponseDiffForRequestView) (d : ResponseDiffForRequestView) :
  getAllDiffStore [] (Value (diffs ++ [d])%list) = getAllDiffStore [] (Value [d]) /\
  getAllDiffStore [] (Value [d]) = Prints [reportRequest EmptyString d] /\
  getAllDiffStore [] (Value (diffs ++ [d])%list) <>
    Prints ["There are no diffs stored in Hoverfly"] /\
  getAllDiffStore [] (Value []) = Prints ["There are no diffs stored in Hoverfly"].
Proof.
  assert (forall ds, getAllDiffStore [] (Value (ds ++ [d])%list) =
                     Prints [reportRequest EmptyString d]) as Hlast.
  { intros ds. unfold getAllDiffStore. cbn [length Nat.eqb].
    rewrite fold_reportRequest_last.
    destruct (reportRequest_starts_with_newline EmptyString d) as [text ->].
    reflexivity. }
  split; [|split; [|split]].
  - rewrite Hlast. symmetry. apply (Hlast []).
  - apply (Hlast []).
  - rewrite Hlast. destruct (reportRequest_starts_with_newline EmptyString d) as [text ->].
    discriminate.
  - reflexivity.
Qed.

End diffStore_facts.

(** ** Simulation names and the pid file *)

Section hoverctl_facts.

Import strings strconv hoverctl.

(** X20. [splitHoverfileName] panics exactly when the key holds no slash. A
    key of a vendor and a name without slashes, joined by a slash, is split
    into the two; whatever follows a further slash is dropped. *)
Theorem splitHoverfileName_spec (vendor name : string) :
  Contains vendor "/" = false -> Contains name "/" = false ->
  splitHoverfileName (vendor +:+ "/" +:+ name) = Returns (vendor, name) /\
  (forall rest,
     splitHoverfileName (vendor +:+ "/" +:+ name +:+ "/" +:+ rest) = Returns (vendor, name)) /\
  (forall key,
     (exists reason, splitHoverfileName key = Panics reason) <-> Contains key "/" = false).
Proof.
  intros Hvendor Hname.
  assert (forall tail, (0 < String.length (vendor +:+ "/" +:+ tail))%nat) as Hpos.
  { intros tail. rewrite !length_append. cbn. lia. }
  split; [|split].
  - unfold splitHoverfileName, Split.
    destruct (String.length (vendor +:+ "/" +:+ name)) as [|fuel] eqn:Hlen;
      [specialize (Hpos name); lia|].
    cbn [genSplit]. change ("/" +:+ name) with (String "/" name).
    rewrite cut_char_first by exact Hvendor.
    destruct fuel as [|fuel]; cbn [genSplit]; [reflexivity|].
    apply cut_None in Hname. now rewrite Hname.
  - intros rest. unfold splitHoverfileName, Split.
    destruct (String.length (vendor +:+ "/" +:+ name +:+ "/" +:+ rest)) as [|fuel] eqn:Hlen;
      [specialize (Hpos (name +:+ "/" +:+ rest)); lia|].
    cbn [genSplit]. change ("/" +:+ name +:+ "/" +:+ rest) with (String "/" (name +:+ "/" +:+ rest)).
    rewrite cut_char_first by exact Hvendor.
    destruct fuel as [|fuel].
    { rewrite !length_append in Hlen. cbn in Hlen. lia. }
    cbn [genSplit]. change ("/" +:+ rest) with (String "/" rest).
    now rewrite cut_char_first by exact Hname.
  - intros key. unfold splitHoverfileName, Split. rewrite <- cut_None.
    destruct key as [|c key]; [cbn; split; eauto|].
    cbn [String.length genSplit].
    destruct (cut "/" (String c key)) as [[before after]|]; [|split; eauto].
    pose proof (genSplit_nonempty (String.length key) after "/" false) as Hpieces.
    destruct (genSplit (String.length key) after "/" false); [contradiction|].
    split; [intros [? ?]; discriminate|discriminate].
Qed.

Section handlers_facts.

Variable filepath_Join : string -> string -> string.
Variable Start : option Z.
Variable Kill : Z -> option string.



End handlers_facts.

End hoverctl_facts.

(** ** Importing payloads *)

Section ImportPayloads_facts.

Import strconv dbclient.
Context {Request Response Cache Hooks : Type}.
Variable Hash : Request -> string.
Variable Encode : Payload Request Response -> orError string.
Variable Hooks_Fire : Hooks -> string -> Hooks.
Variable Cache_Set : Cache -> string -> string -> Cache.

Local Abbreviation regenerated := (fun pl : Payload Request Response =>
  {| payloadResponse := payloadResponse pl; payloadRequest := payloadRequest pl;
     ID := Hash (payloadRequest pl) |}).

Local Abbreviation encodes := (fun pl : Payload Request Response =>
  match Encode (regenerated pl) with Value _ => true | Error _ => false end).

Lemma importPayload_counts payloads d n :
  0 <= success n -> 0 <= failed n ->
  success n + failed n + Z.of_nat (length payloads) <= maxInt ->
  let result := fold_left (importPayload Hash Encode Hooks_Fire Cache_Set) payloads (d, n) in
  success (snd result) = success n + Z.of_nat (length (filter (fun pl => encodes pl = true) payloads)) /\
  failed (snd result) = failed n + Z.of_nat (length (filter (fun pl => encodes pl = false) payloads)).
Proof.
  revert d n. induction payloads as [|pl payloads IH]; intros d n Hs Hf Hsum; cbn [fold_left].
  - cbn. lia.
  - cbn [length] in Hsum.
    assert (length (filter (fun pl => encodes pl = true) payloads) <= length payloads)%nat
      by apply length_filter.
    rewrite !filter_cons.
    destruct (Encode (regenerated pl)) as [bts|err] eqn:Hencode.
    + assert (importPayload Hash Encode Hooks_Fire Cache_Set (d, n) pl =
              ({| dbCache := Cache_Set (dbCache d) (Hash (payloadRequest pl)) bts;
                  dbHooks := Hooks_Fire (dbHooks d) bts |},
               {| success := success n + 1; failed := failed n |})) as ->.
      { unfold importPayload. rewrite Hencode.
        now rewrite wrap_small by (unfold maxInt, minInt in *; lia). }
      destruct (IH {| dbCache := Cache_Set (dbCache d) (Hash (payloadRequest pl)) bts;
                      dbHooks := Hooks_Fire (dbHooks d) bts |}
                   {| success := success n + 1; failed := failed n |})
        as [IHs IHf]; [cbn [success failed]; lia..|].
      cbv zeta in *. rewrite IHs, IHf. cbn [success failed].
      rewrite decide_True by reflexivity. rewrite decide_False by discriminate.
      cbn [length]. lia.
    + assert (importPayload Hash Encode Hooks_Fire Cache_Set (d, n) pl =
              (d, {| success := success n; failed := failed n + 1 |})) as ->.
      { unfold importPayload. rewrite Hencode.
        now rewrite wrap_small by (unfold maxInt, minInt in *; lia). }
      destruct (IH d {| success := success n; failed := failed n + 1 |})
        as [IHs IHf]; [cbn [success failed]; lia..|].
      cbv zeta in *. rewrite IHs, IHf. cbn [success failed].
      rewrite decide_False by discriminate. rewrite decide_True by reflexivity.
      cbn [length]. lia.
Qed.

(** X23. [ImportPayloads] fails exactly when it is given no payload, with
    [Bad request. Nothing to import!], and then the client is as before.
    Given some, it returns no error even when payloads, or all of them, could
    not be encoded: the totals it logs count as successful the payloads that
    encode under their regenerated id and as failed the others, and the two
    add up to the number of payloads. *)
Theorem ImportPayloads_outcome (d : DBClient Cache Hooks)
    (payloads : list (Payload Request Response)) :
  Z.of_nat (length payloads) <= maxInt ->
  match ImportPayloads Hash Encode Hooks_Fire Cache_Set d payloads with
  | (d', None, err) =>
      payloads = [] /\ d' = d /\ err = Some "Bad request. Nothing to import!"
  | (d', Some (total, successful, failed), err) =>
      payloads <> [] /\ err = None /\
      total = Z.of_nat (length payloads) /\
      successful = Z.of_nat (length (filter (fun pl => encodes pl = true) payloads)) /\
      successful + failed = total
  end.
Proof.
  intros Hlen. unfold ImportPayloads.
  destruct payloads as [|pl payloads]; [now cbn|].
  change (0 <? length (pl :: payloads))%nat with true. cbv iota.
  pose proof (importPayload_counts (pl :: payloads) d {| success := 0; failed := 0 |}) as Hcounts.
  cbn [success failed] in Hcounts. cbv zeta in Hcounts.
  destruct Hcounts as [Hs Hf]; [lia|lia|lia|].
  destruct (fold_left _ (pl :: payloads) _) as [d' n]. cbn [snd] in Hs, Hf.
  split; [discriminate|]. split; [reflexivity|]. split; [reflexivity|].
  split; [lia|]. rewrite Hs, Hf.
  assert (forall l : list (Payload Request Response),
            (length (filter (fun pl => encodes pl = true) l) +
             length (filter (fun pl => encodes pl = false) l) = length l)%nat) as Hsplit.
  { induction l as [|x l IH]; [reflexivity|]. rewrite !filter_cons.
    destruct (encodes x) eqn:Hx.
    - rewrite decide_True by reflexivity. rewrite decide_False by discriminate.
      cbn [length]. lia.
    - rewrite decide_False by discriminate. rewrite decide_True by reflexivity.
      cbn [length]. lia. }
  specialize (Hsplit (pl :: payloads)). lia.
Qed.

(** X24. [ImportPayloads] does not read the ids that the payloads come
    with: two lists of payloads that agree in their requests and responses
    are imported alike, into the same cache entries and with the same hook
    calls. *)
Theorem ImportPayloads_regenerates_ids (d : DBClient Cache Hooks)
    (given other : list (Payload Request Response)) :
  Forall2 (fun a b => payloadRequest a = payloadRequest b /\
                      payloadResponse a = payloadResponse b) given other ->
  ImportPayloads Hash Encode Hooks_Fire Cache_Set d given =
  ImportPayloads Hash Encode Hooks_Fire Cache_Set d other.
Proof.
  intros Hsame. unfold ImportPayloads. rewrite (Forall2_length _ _ _ Hsame).
  destruct (0 <? length other)%nat; [|reflexivity].
  assert (forall st,
            fold_left (importPayload Hash Encode Hooks_Fire Cache_Set) given st =
            fold_left (importPayload Hash Encode Hooks_Fire Cache_Set) other st) as ->;
    [|reflexivity].
  induction Hsame as [|a b given other [Hreq Hresp] _ IH]; intros st; [reflexivity|].
  cbn [fold_left]. rewrite IH. f_equal. destruct st as [d0 n].
  unfold importPayload. now rewrite Hreq, Hresp.
Qed.

End ImportPayloads_facts.

(** ** The properties at work *)

Section pipeline_more_examples.

Import models hoverfly examples cases.

(** The list cache of the examples answers a request with the response that
    was saved for it last. *)
Lemma cacheSave_cacheGetResponse (c : list RequestResponsePair) req response :
  cacheGetResponse (cacheSave c {| pairRequest := req; pairResponse := response |}) req =
  Value response.
Proof.
  unfold cacheGetResponse, cacheSave. cbn [List.find pairRequest].
  now rewrite bool_decide_eq_true_2.
Qed.

(** The JSON request misses the empty cache and matches the template; from
    then on it is served from the cache, also with an empty template store. *)
Lemma GetResponse_serves_from_cache_afterwards_witness :
  GetResponse cacheGetResponse cacheSave templateMatch
    (fst (GetResponse cacheGetResponse cacheSave templateMatch [] false [jsonTemplate]
            requestJson))
    true [] requestJson =
  (fst (GetResponse cacheGetResponse cacheSave templateMatch [] false [jsonTemplate]
          requestJson),
   Matched (response 200 "ok")).
Proof.
  destruct (GetResponse_serves_from_cache_afterwards cacheGetResponse cacheSave templateMatch
              [] false [jsonTemplate] requestJson cacheSave_cacheGetResponse) as [Hhit _].
  apply (Hhit (response 200 "ok")). reflexivity.
Defined.

(** The delay of the simulate test is the one [GetDelay] selects. *)
Lemma processRequest_delay_only_if_witness :
  [ {| UrlPattern := "virtual.com"; HttpMethod := "GET"; Delay := 250 |} ] = [] \/
  exists requestDetails m respDelay,
    newRequestDetails [requestPath1] (httpRequestOf requestPath1) = Value requestDetails /\
    modeMap !! Simulate = Some m /\
    Simulate <> Capture /\
    Process m [recordedPath1] (httpRequestOf requestPath1) requestDetails =
      ([recordedPath1],
       {| http.StatusCode := 201; http.respHeader := {[ "Header" := ["value1"] ]};
          http.respBody := "body1" |}, None) /\
    ResponseDelayList_GetDelay literalMatch delayRules requestDetails = Some respDelay /\
    [ {| UrlPattern := "virtual.com"; HttpMethod := "GET"; Delay := 250 |} ] = [respDelay].
Proof.
  apply (processRequest_delay_only_if (ResponseDelayList_GetDelay literalMatch delayRules)
           (newRequestDetails [requestPath1]) errorResponse
           Simulate modeMap [recordedPath1] (httpRequestOf requestPath1)).
  reflexivity.
Defined.

End pipeline_more_examples.

Section wrapper_examples.

Import strings wrapper cases.

(** The text logs of a local Hoverfly: two lines. *)
Lemma GetLogs_text_witness :
  exists lines,
    GetLogs newRequest serveLogs localTarget "plain" = Returns (Value lines) /\
    lines <> [] /\
    Forall (fun line => Contains line newline = false) lines /\
    Join lines newline = textLogs.
Proof.
  apply (GetLogs_text newRequest serveLogs localTarget "plain"
           {| http.StatusCode := 200; http.respHeader := ∅; http.respBody := textLogs |}).
  - discriminate.
  - vm_compute. reflexivity.
Defined.

(** The JSON logs of a local Hoverfly: the entries between the brackets. *)
Lemma GetLogs_json_witness :
  exists entries final,
    GetLogs newRequest serveLogs localTarget "json" =
      Returns (Value (entries ++ [final])%list) /\
    Join (entries ++ [final])%list EmptyString =
      String.substring 9 (String.length jsonLogs - 11) jsonLogs /\
    Forall (fun entry => exists text, entry = text +:+ "},") entries /\
    Contains final "}," = false.
Proof.
  apply (GetLogs_json newRequest serveLogs localTarget
           {| http.StatusCode := 200; http.respHeader := ∅; http.respBody := jsonLogs |}).
  vm_compute. reflexivity.
Defined.

End wrapper_examples.

Section hoverctl_examples.

Import strings strconv hoverctl cases.

Lemma splitHoverfileName_spec_witness :
  splitHoverfileName ("specto" +:+ "/" +:+ "demo") = Returns ("specto", "demo") /\
  (forall rest,
     splitHoverfileName ("specto" +:+ "/" +:+ "demo" +:+ "/" +:+ rest) =
     Returns ("specto", "demo")) /\
  (forall key,
     (exists reason, splitHoverfileName key = Panics reason) <-> Contains key "/" = false).
Proof. apply (splitHoverfileName_spec "specto" "demo"); reflexivity. Defined.



End hoverctl_examples.

Section ImportPayloads_examples.

Import dbclient cases.

(** Of the two payloads the first encodes, under the hash of its request
    and not under the id it came with, and the second does not. *)
Lemma ImportPayloads_outcome_witness :
  ImportPayloads id encode fire set emptyClient payloads =
    ({| dbCache := {[ "GET /ping" := "GET /ping:pong" ]}; dbHooks := ["GET /ping:pong"] |},
     Some (2, 1, 1), None) /\
  payloads <> [] /\
  1 = Z.of_nat (length (filter (fun pl => match encode {| payloadResponse := payloadResponse pl;
                                                       payloadRequest := payloadRequest pl;
                                                       ID := id (payloadRequest pl) |} with
                                       | Value _ => true | Error _ => false end = true)
                          payloads)).
Proof.
  pose proof (ImportPayloads_outcome id encode fire set emptyClient payloads) as H.
  assert (ImportPayloads id encode fire set emptyClient payloads =
          ({| dbCache := {[ "GET /ping" := "GET /ping:pong" ]}; dbHooks := ["GET /ping:pong"] |},
           Some (2, 1, 1), None)) as Heq by (vm_compute; reflexivity).
  rewrite Heq in H. split; [reflexivity|].
  destruct H as (Hsome & _ & _ & Hsuccess & _); [cbn; unfold strconv.maxInt; lia|].
  split; [exact Hsome|exact Hsuccess].
Defined.

Lemma ImportPayloads_regenerates_ids_witness :
  ImportPayloads id encode fire set emptyClient payloads =
  ImportPayloads id encode fire set emptyClient
    [ {| payloadResponse := "pong"; payloadRequest := "GET /ping"; ID := "other" |};
      {| payloadResponse := EmptyString; payloadRequest := "GET /nothing"; ID := "ids" |} ].
Proof.
  apply (ImportPayloads_regenerates_ids id encode fire set emptyClient).
  repeat constructor.
Defined.

End ImportPayloads_examples.

(** ** The JavaScript lexer *)

Section js_facts.

Import js.

Ltac chars :=
  repeat match goal with
         | |- context [ch ?c] =>
             let v := eval vm_compute in (ch c) in change (ch c) with v
         | H : context [ch ?c] |- _ =>
             let v := eval vm_compute in (ch c) in change (ch c) with v in H
         end.



Lemma pos_Move (n : Z) (l : Lexer) : pos (Move n l) = Z.to_nat (Z.of_nat (pos l) + n).
Proof. reflexivity. Qed.

Lemma Peek_Move (n i : nat) (l : Lexer) : Peek (Move (Z.of_nat n) l) i = Peek l (n + i).
Proof. unfold Peek. cbn [Move buf pos]. f_equal. lia. Qed.










(** What the lexer holds after a token that started at [l]: the same
    buffer and flag, a position further on and inside the buffer, and a byte
    that passes the test before the position. *)
Local Abbreviation token test l l' :=
  (buf l' = buf l /\ templateState l' = templateState l /\
   (Nat.lt (pos l) (pos l') /\ Nat.le (pos l') (length (buf l))) /\
   test (nth (Nat.sub (pos l') 1) (buf l) 0) = true).










End js_facts.

Section js_punctuators.

Import js.

Lemma nth_drop_add (b : list Z) (p i : nat) : nth (p + i) b 0 = nth i (drop p b) 0.
Proof.
  revert p. induction b as [|x b IH]; intros [|p]; cbn; try reflexivity.
  - now destruct i.
  - apply IH.
Qed.

Lemma Peek_drop (l : Lexer) (i : nat) : Peek l i = nth i (drop (pos l) (buf l)) 0.
Proof. apply nth_drop_add. Qed.

Lemma pos_Move_1 (l : Lexer) : pos (Move 1 l) = S (pos l).
Proof. cbn [Move pos]. lia. Qed.

Lemma Peek_Move_1 (l : Lexer) (i : nat) : Peek (Move 1 l) i = Peek l (S i).
Proof. apply (Peek_Move 1 i l). Qed.

Lemma sameBytes_eq (a b : list Z) : sameBytes a b = true -> a = b.
Proof.
  revert b. induction a as [|x a IH]; intros [|y b]; cbn; try discriminate; [reflexivity|].
  intros [->%Z.eqb_eq Hrest]%andb_true_iff. f_equal. now apply IH.
Qed.

Ltac chars :=
  repeat match goal with
         | |- context [ch ?c] =>
             let v := eval vm_compute in (ch c) in change (ch c) with v
         | H : context [ch ?c] |- _ =>
             let v := eval vm_compute in (ch c) in change (ch c) with v in H
         end.

Ltac decide_test :=
  match goal with
  | |- context [Z.eqb ?x ?v] =>
      is_var x; destruct (Z.eqb_spec x v); [subst x|]; try congruence
  end.

(** The step of the proof for one shape of input: the result of the
    function with the number of bytes it takes, which make the longest
    punctuator the input starts with. *)
Lemma consumeLongPunctuatorToken_longestPunctuator (l : Lexer) :
  In (Peek l 0) (bytes "!=+-*/%&|^<>") ->
  exists l' k,
    consumeLongPunctuatorToken l = (true, l') /\
    buf l' = buf l /\ templateState l' = templateState l /\
    pos l' = (k + pos l)%nat /\
    longestPunctuator k (drop (pos l) (buf l)) = true.
Proof.
  unfold consumeLongPunctuatorToken, longestPunctuator.
  set (ps := map bytes punctuators). vm_compute in ps. subst ps.
  set (first := bytes "!=+-*/%&|^<>"). vm_compute in first. subst first.
  chars.
  pose proof (Peek_drop l) as Hpeek.
  revert Hpeek. generalize (drop (pos l) (buf l)). intros s Hpeek Hfirst.
  rewrite Hpeek in Hfirst.
  destruct s as [|c [|c1 [|c2 [|c3 s]]]]; cbn [nth] in Hfirst;
    cbn [In] in Hfirst; intuition (try discriminate; subst);
    repeat first
      [ progress (rewrite ?Peek_Move_1, ?Hpeek; cbn [nth andb orb negb Z.eqb Pos.eqb])
      | decide_test ];
    (eexists _, _; split; [reflexivity|]; split; [reflexivity|]; split; [reflexivity|];
     split; [rewrite ?pos_Move_1;
             first [ exact (eq_refl : _ = (1 + _)%nat) | exact (eq_refl : _ = (2 + _)%nat)
                   | exact (eq_refl : _ = (3 + _)%nat) | exact (eq_refl : _ = (4 + _)%nat) ]|]);
    cbn [existsb forallb sameBytes startsWith take implb andb orb Nat.leb length
           Z.eqb Pos.eqb];
    repeat first
      [ reflexivity
      | decide_test; cbn [existsb forallb sameBytes startsWith take implb andb orb Nat.leb
                            length Z.eqb Pos.eqb] ].
Qed.

Lemma length_bytes (p : string) : length (bytes p) = String.length p.
Proof.
  unfold bytes. induction p as [|c p IH]; [reflexivity|]. cbn. now rewrite <- IH.
Qed.

(** X26. On a byte that starts an operator, [consumeLongPunctuatorToken]
    takes the longest punctuator that the input starts with: between one and
    four bytes inside the buffer, which spell a punctuator, and no punctuator
    at the head of the input is longer. *)
Theorem consumeLongPunctuatorToken_longest_match (l : Lexer) :
  In (Peek l 0) (bytes "!=+-*/%&|^<>") ->
  exists l',
    consumeLongPunctuatorToken l = (true, l') /\
    buf l' = buf l /\ templateState l' = templateState l /\
    (pos l < pos l' <= length (buf l))%nat /\
    (exists p, In p punctuators /\ bytes p = slice (pos l) (pos l') l) /\
    (forall p, In p punctuators ->
               startsWith (bytes p) (drop (pos l) (buf l)) = true ->
               (String.length p <= pos l' - pos l)%nat).
Proof.
  intros Hfirst.
  destruct (consumeLongPunctuatorToken_longestPunctuator l Hfirst)
    as (l' & k & Hresult & Hbuf & Htemplate & Hpos & Hlongest).
  exists l'. split; [exact Hresult|]. split; [exact Hbuf|]. split; [exact Htemplate|].
  unfold longestPunctuator in Hlongest.
  apply andb_true_iff in Hlongest as [Hlongest Hall].
  apply andb_true_iff in Hlongest as [Hlongest Hsome].
  apply andb_true_iff in Hlongest as [Hone%Nat.leb_le Hinside%Nat.leb_le].
  rewrite length_drop in Hinside.
  split; [lia|]. split.
  - apply existsb_exists in Hsome as (text & Hin & Hsame).
    apply in_map_iff in Hin as (p & <- & Hin). exists p. split; [exact Hin|].
    apply sameBytes_eq in Hsame. rewrite Hsame. unfold slice. f_equal. lia.
  - intros p Hin Hstarts. rewrite forallb_forall in Hall.
    specialize (Hall (bytes p) (in_map bytes _ _ Hin)). rewrite Hstarts in Hall.
    cbn [implb] in Hall. apply Nat.leb_le in Hall. rewrite length_bytes in Hall. lia.
Qed.





Section comment_facts.

Variable PeekRune : Lexer -> Z.




End comment_facts.

End js_punctuators.

Section js_examples.

Import js cases.


(** In [a >>>= 1] the punctuator at the third byte is [>>>=]. *)
Lemma consumeLongPunctuatorToken_longest_match_witness :
  exists l',
    consumeLongPunctuatorToken (lexerAt "a >>>= 1" 2) = (true, l') /\
    buf l' = buf (lexerAt "a >>>= 1" 2) /\
    templateState l' = templateState (lexerAt "a >>>= 1" 2) /\
    (pos (lexerAt "a >>>= 1" 2) < pos l' <= length (buf (lexerAt "a >>>= 1" 2)))%nat /\
    (exists p, In p punctuators /\
               bytes p = slice (pos (lexerAt "a >>>= 1" 2)) (pos l') (lexerAt "a >>>= 1" 2)) /\
    (forall p, In p punctuators ->
               startsWith (bytes p)
                 (drop (pos (lexerAt "a >>>= 1" 2)) (buf (lexerAt "a >>>= 1" 2))) = true ->
               (String.length p <= pos l' - pos (lexerAt "a >>>= 1" 2))%nat).
Proof.
  apply (consumeLongPunctuatorToken_longest_match (lexerAt "a >>>= 1" 2)).
  vm_compute. repeat first [left; reflexivity | right].
Defined.

End js_examples.
